(** * ai-content-evaluator: the evaluation core, embedded and verified

    The development follows the three source files:
    - [utils/data_model.py]: [CriterionScore], [Evaluation] with [to_dict] and
      [from_dict], the two criteria registries, [get_decision];
    - [utils/evaluator.py]: [_get_criteria], [_parse_claude_response],
      [_calculate_overall_score], [evaluate_content];
    - [app.py]: the human-judgment section of the first tab.

    Conventions of the embedding.
    - A Python [str] is a [string]; each character stands for one code point
      (the code points below 256).
    - A Python [float] is a rational number of [Q]: every finite float is one,
      comparisons between floats are exact, and arithmetic is the exact
      arithmetic that the float operations approximate.  Non-finite floats and
      the rounding error of binary64 arithmetic are outside the model.
    - A Python [dict] is an association list in insertion order; its keys are
      pairwise distinct, which is stated as [NoDup] where a result needs it.
    - A raised exception is the [Raise] case of [result]; [try]/[except
      Exception] is a match on it.  Printing is not modelled. *)

From Stdlib Require Import ZArith QArith Qround Qabs Lia Lqa.
From Stdlib Require Import Bool List String Ascii Permutation.
Import ListNotations.

Local Open Scope string_scope.
Local Open Scope Q_scope.

(** ** Python values, exceptions and dictionaries *)

Module Py.

Inductive exn : Type :=
| JSONDecodeError
| KeyError
| TypeError
| ValueError
| ZeroDivisionError
| AttributeError
| RecursionError
| APIError.

Inductive result (A : Type) : Type :=
| Ok (a : A)
| Raise (e : exn).

Arguments Ok {A} a.
Arguments Raise {A} e.

Definition bind {A B : Type} (m : result A) (k : A -> result B) : result B :=
  match m with
  | Ok a => k a
  | Raise e => Raise e
  end.

Notation "x <- m ;; k" := (bind m (fun x => k))
  (at level 61, m at next level, right associativity).

(** [try: body except Exception: handler] *)
Definition try_except {A : Type} (body : result A) (handler : exn -> A) : A :=
  match body with
  | Ok a => a
  | Raise e => handler e
  end.

Definition raises {A : Type} (m : result A) : Prop :=
  exists e, m = Raise e.

(** Dictionaries with [str] keys, in insertion order. *)
Definition dict (V : Type) : Type := list (string * V).

Definition keys {V : Type} (d : dict V) : list string := map fst d.

Fixpoint dict_get {V : Type} (k : string) (d : dict V) : option V :=
  match d with
  | [] => None
  | (k', v) :: d' => if String.eqb k k' then Some v else dict_get k d'
  end.

(** [key in d] *)
Definition dict_mem {V : Type} (k : string) (d : dict V) : bool :=
  match dict_get k d with
  | Some _ => true
  | None => false
  end.

(** [d[k] = v]: an existing key keeps its position, a new key goes last. *)
Fixpoint dict_set {V : Type} (k : string) (v : V) (d : dict V) : dict V :=
  match d with
  | [] => [(k, v)]
  | (k', v') :: d' =>
      if String.eqb k k' then (k', v) :: d' else (k', v') :: dict_set k v d'
  end.

(** [{k: f(k, x) for k, x in d.items()}] *)
Definition dict_comp {V W : Type} (f : string -> V -> W) (d : dict V) : dict W :=
  fold_left (fun acc kv => dict_set (fst kv) (f (fst kv) (snd kv)) acc) d [].

(** [[f(x) for x in xs]] when [f] can raise. *)
Fixpoint list_comp_r {A B : Type} (f : A -> result B) (xs : list A)
  : result (list B) :=
  match xs with
  | [] => Ok []
  | x :: xs' =>
      y <- f x ;;
      ys <- list_comp_r f xs' ;;
      Ok (y :: ys)
  end.

(** One turn of a loop that computes a value for an item and stores it under
    the item's key; the first exception ends the loop. *)
Definition loop_step {V W : Type} (f : string -> V -> result W)
    (acc : result (dict W)) (kv : string * V) : result (dict W) :=
  a <- acc ;;
  w <- f (fst kv) (snd kv) ;;
  Ok (dict_set (fst kv) w a).

(** The same comprehension when the element expression can raise. *)
Definition dict_comp_r {V W : Type} (f : string -> V -> result W) (d : dict V)
  : result (dict W) :=
  fold_left (loop_step f) d (Ok []).

(** [computed f kv kw]: entry [kw] is what such a loop stores for item [kv]. *)
Definition computed {V W : Type} (f : string -> V -> result W)
    (kv : string * V) (kw : string * W) : Prop :=
  fst kw = fst kv /\ f (fst kv) (snd kv) = Ok (snd kw).

(** The values [json.loads] can return. *)
#[warnings="-register-all"]
Inductive pyval : Type :=
| PNone
| PBool (b : bool)
| PInt (z : Z)
| PFloat (q : Q)
| PStr (s : string)
| PList (l : list pyval)
| PDict (d : list (string * pyval)).

(** [s.startswith(p)] *)
Fixpoint startswith (p s : string) : bool :=
  match p, s with
  | EmptyString, _ => true
  | String a p', String b s' => Ascii.eqb a b && startswith p' s'
  | String _ _, EmptyString => false
  end.

(** [p in s] for two strings: [p] occurs as a substring of [s]. *)
Fixpoint str_contains (p s : string) : bool :=
  startswith p s ||
  match s with
  | EmptyString => false
  | String _ s' => str_contains p s'
  end.

(** [x == key] for a list element [x] and a [str] key. *)
Definition is_str (key : string) (x : pyval) : bool :=
  match x with
  | PStr s => String.eqb s key
  | _ => false
  end.

(** [key in v] *)
Definition py_contains (key : string) (v : pyval) : result bool :=
  match v with
  | PDict d => Ok (dict_mem key d)
  | PList l => Ok (existsb (is_str key) l)
  | PStr s => Ok (str_contains key s)
  | _ => Raise TypeError
  end.

(** [v[key]] with a [str] subscript. *)
Definition py_getitem (v : pyval) (key : string) : result pyval :=
  match v with
  | PDict d =>
      match dict_get key d with
      | Some x => Ok x
      | None => Raise KeyError
      end
  | _ => Raise TypeError
  end.

(** [x < y] and [x > y] on floats. *)
Definition Qlt_bool (x y : Q) : bool := negb (Qle_bool y x).
Definition Qgt_bool (x y : Q) : bool := Qlt_bool y x.
(** [x >= y] *)
Definition Qge_bool (x y : Q) : bool := Qle_bool y x.

(** [x / y] *)
Definition py_div (x y : Q) : result Q :=
  if Qeq_bool y 0 then Raise ZeroDivisionError else Ok (x / y).

(** [sum(xs)]: the items added from the left, starting from 0. *)
Definition py_sum (xs : list Q) : Q := fold_left Qplus xs 0.

(** Rounding to the nearest integer, a tie going to the even neighbour. *)
Definition round_half_even (x : Q) : Z :=
  let f := Qfloor x in
  match Qcompare (x - inject_Z f) (1 # 2) with
  | Lt => f
  | Gt => (f + 1)%Z
  | Eq => if Z.even f then f else (f + 1)%Z
  end.

Definition pow10 (n : nat) : positive := Nat.iter n (Pos.mul 10) 1%positive.

(** [round(x, ndigits)] for [ndigits >= 0]: the nearest multiple of
    [10 ** -ndigits], in lowest terms. *)
Definition py_round (x : Q) (ndigits : nat) : Q :=
  Qred (round_half_even (x * inject_Z (Zpos (pow10 ndigits))) # pow10 ndigits).

(** Truth value of a value. *)
Definition py_truthy (v : pyval) : bool :=
  match v with
  | PNone => false
  | PBool b => b
  | PInt z => negb (Z.eqb z 0)
  | PFloat q => negb (Qeq_bool q 0)
  | PStr s => negb (String.eqb s EmptyString)
  | PList l => match l with [] => false | _ => true end
  | PDict d => match d with [] => false | _ => true end
  end.

(** A keyword argument of a call that unpacks the dictionary [d]: a missing
    one is a [TypeError]. *)
Definition kwarg (d : dict pyval) (k : string) : result pyval :=
  match dict_get k d with
  | Some v => Ok v
  | None => Raise TypeError
  end.

(** Such a call accepts no keyword beyond the parameters of the callee. *)
Definition only_kwargs (params : list string) (d : dict pyval) : bool :=
  forallb (fun k => existsb (String.eqb k) params) (keys d).

(** Truth value of an [Optional[float]]. *)
Definition truthy_float (o : option Q) : bool :=
  match o with
  | None => false
  | Some q => negb (Qeq_bool q 0)
  end.

End Py.

Import Py.

(** ** Strings: [strip], [split], [join] *)

Module Str.

(** The characters [str.strip()] removes: the code points below 256 for which
    [str.isspace()] holds. *)
Definition is_space (c : ascii) : bool :=
  let n := nat_of_ascii c in
  ((9 <=? n) && (n <=? 13) || (28 <=? n) && (n <=? 32)
   || (n =? 133) || (n =? 160))%nat.

Fixpoint lstrip (s : string) : string :=
  match s with
  | EmptyString => EmptyString
  | String c s' => if is_space c then lstrip s' else s
  end.

Fixpoint rstrip (s : string) : string :=
  match s with
  | EmptyString => EmptyString
  | String c s' =>
      match rstrip s' with
      | EmptyString => if is_space c then EmptyString else String c EmptyString
      | r => String c r
      end
  end.

Definition strip (s : string) : string := rstrip (lstrip s).

(** A text of white space only, and the number of other characters. *)
Fixpoint all_space (s : string) : bool :=
  match s with
  | EmptyString => true
  | String c s' => is_space c && all_space s'
  end.

Fixpoint count_nonspace (s : string) : nat :=
  match s with
  | EmptyString => O
  | String c s' => if is_space c then count_nonspace s' else S (count_nonspace s')
  end.

(** [s.split("\n")]: the pieces between line feeds, at least one piece. *)
Definition LF : ascii := ascii_of_nat 10.

Fixpoint split_lines (s : string) : list string :=
  match s with
  | EmptyString => [EmptyString]
  | String c s' =>
      if Ascii.eqb c LF then EmptyString :: split_lines s'
      else
        match split_lines s' with
        | [] => [String c EmptyString]
        | l :: ls => String c l :: ls
        end
  end.

(** ["\n".join(ls)] *)
Fixpoint join_lines (ls : list string) : string :=
  match ls with
  | [] => EmptyString
  | [l] => l
  | l :: ls' => l ++ String LF (join_lines ls')
  end.

(** [ls[1:-1]] *)
Definition slice_1_m1 {A : Type} (ls : list A) : list A :=
  removelast (tl ls).

End Str.

(** ** utils/data_model.py *)

Record CriterionScore : Type := mkCriterionScore {
  score : Q;
  explanation : pyval;
  weight : Q
}.

Definition ScoreMap : Type := dict CriterionScore.

Record Evaluation : Type := mkEvaluation {
  id : string;
  timestamp : string;
  use_case : string;
  content : string;
  context : string;
  ai_scores : ScoreMap;
  ai_overall_score : Q;
  ai_decision : string;
  human_scores : option ScoreMap;
  human_overall_score : option Q;
  human_decision : option string;
  human_feedback : option string
}.

(** *** [Evaluation.to_dict]: [dataclasses.asdict] *)

Definition CriterionScore_asdict (cs : CriterionScore) : pyval :=
  PDict [ ("score", PFloat (score cs));
          ("explanation", explanation cs);
          ("weight", PFloat (weight cs)) ].

Definition ScoreMap_asdict (m : ScoreMap) : pyval :=
  PDict (dict_comp (fun _ cs => CriterionScore_asdict cs) m).

Definition optional {A : Type} (f : A -> pyval) (o : option A) : pyval :=
  match o with
  | Some a => f a
  | None => PNone
  end.

Definition to_dict (self : Evaluation) : dict pyval :=
  [ ("id", PStr (id self));
    ("timestamp", PStr (timestamp self));
    ("use_case", PStr (use_case self));
    ("content", PStr (content self));
    ("context", PStr (context self));
    ("ai_scores", ScoreMap_asdict (ai_scores self));
    ("ai_overall_score", PFloat (ai_overall_score self));
    ("ai_decision", PStr (ai_decision self));
    ("human_scores", optional ScoreMap_asdict (human_scores self));
    ("human_overall_score", optional PFloat (human_overall_score self));
    ("human_decision", optional PStr (human_decision self));
    ("human_feedback", optional PStr (human_feedback self)) ].

(** *** [Evaluation.from_dict]

    The records of the embedding are typed.  Where the source would store a
    value of another Python type than the field declares (the dataclasses do
    not check), the model raises [TypeError]. *)

Definition as_str (v : pyval) : result string :=
  match v with
  | PStr s => Ok s
  | _ => Raise TypeError
  end.

Definition as_float (v : pyval) : result Q :=
  match v with
  | PFloat q => Ok q
  | PInt z => Ok (inject_Z z)
  | _ => Raise TypeError
  end.

Definition as_optional {A : Type} (f : pyval -> result A) (v : pyval)
  : result (option A) :=
  match v with
  | PNone => Ok None
  | _ => a <- f v ;; Ok (Some a)
  end.

(** [CriterionScore] called with the entries of [v] as keyword arguments. *)
Definition CriterionScore_of_kwargs (v : dict pyval) : result CriterionScore :=
  if only_kwargs ["score"; "explanation"; "weight"] v then
    s <- kwarg v "score" ;;
    s <- as_float s ;;
    e <- kwarg v "explanation" ;;
    w <- kwarg v "weight" ;;
    w <- as_float w ;;
    Ok (mkCriterionScore s e w)
  else Raise TypeError.

(** The element of the comprehension: a [dict] becomes a [CriterionScore],
    anything else stays as it is. *)
Definition score_of_value (v : pyval) : result CriterionScore :=
  match v with
  | PDict d => CriterionScore_of_kwargs d
  | _ => Raise TypeError
  end.

(** [{k: ... for k, v in scores.items()}] *)
Definition scores_of_value (scores : pyval) : result ScoreMap :=
  match scores with
  | PDict d => dict_comp_r (fun _ v => score_of_value v) d
  | _ => Raise AttributeError
  end.

Definition Evaluation_fields : list string :=
  [ "id"; "timestamp"; "use_case"; "content"; "context"; "ai_scores";
    "ai_overall_score"; "ai_decision"; "human_scores"; "human_overall_score";
    "human_decision"; "human_feedback" ].

(** An optional keyword argument, [None] by default. *)
Definition kwarg_default (d : dict pyval) (k : string) : pyval :=
  match dict_get k d with
  | Some v => v
  | None => PNone
  end.

Definition from_dict (data : dict pyval) : result Evaluation :=
  (* if 'ai_scores' in data: ... *)
  ai <- match dict_get "ai_scores" data with
        | Some v => m <- scores_of_value v ;; Ok (Some m)
        | None => Ok None
        end ;;
  (* if data.get('human_scores'): ... *)
  human <- (let v := kwarg_default data "human_scores" in
            if py_truthy v then m <- scores_of_value v ;; Ok (Some m)
            else match v with
                 | PNone => Ok None
                 | PDict _ => Ok (Some [])
                 | _ => Raise TypeError
                 end) ;;
  (* cls called with the entries of data *)
  if only_kwargs Evaluation_fields data then
    i <- kwarg data "id" ;; i <- as_str i ;;
    t <- kwarg data "timestamp" ;; t <- as_str t ;;
    u <- kwarg data "use_case" ;; u <- as_str u ;;
    c <- kwarg data "content" ;; c <- as_str c ;;
    x <- kwarg data "context" ;; x <- as_str x ;;
    a <- match ai with Some m => Ok m | None => Raise TypeError end ;;
    o <- kwarg data "ai_overall_score" ;; o <- as_float o ;;
    d <- kwarg data "ai_decision" ;; d <- as_str d ;;
    ho <- as_optional as_float (kwarg_default data "human_overall_score") ;;
    hd <- as_optional as_str (kwarg_default data "human_decision") ;;
    hf <- as_optional as_str (kwarg_default data "human_feedback") ;;
    Ok (mkEvaluation i t u c x a o d human ho hd hf)
  else Raise TypeError.

(** One entry of a criteria registry. *)
Record CriterionInfo : Type := mkCriterionInfo {
  name : string;
  description : string;
  info_weight : Q
}.

Definition Criteria : Type := dict CriterionInfo.

Definition MARKETING_COPY_CRITERIA : Criteria :=
  [ ("cultural_appropriateness",
     mkCriterionInfo "Cultural Appropriateness"
       "Idioms, cultural references, and tone appropriate for target culture"
       0.30);
    ("persuasiveness",
     mkCriterionInfo "Persuasiveness"
       "Likely to drive action and conversion" 0.25);
    ("brand_voice",
     mkCriterionInfo "Brand Voice Consistency"
       "Matches Amazon's brand voice in the target language" 0.20);
    ("grammar_fluency",
     mkCriterionInfo "Grammar & Fluency" "Natural, error-free language" 0.15);
    ("semantic_accuracy",
     mkCriterionInfo "Semantic Accuracy"
       "Conveys the intended message accurately" 0.10) ].

Definition BILINGUAL_COMPLIANCE_CRITERIA : Criteria :=
  [ ("completeness",
     mkCriterionInfo "Completeness"
       "Both languages present, all content translated" 0.25);
    ("accuracy",
     mkCriterionInfo "Translation Accuracy"
       "Meaning preserved, no mistranslations" 0.25);
    ("fluency",
     mkCriterionInfo "Fluency" "Natural and readable in target language" 0.20);
    ("terminology",
     mkCriterionInfo "Terminology Consistency"
       "Technical/product terms used correctly" 0.15);
    ("regulatory_compliance",
     mkCriterionInfo "Regulatory Compliance"
       "Safety warnings and legal text properly translated" 0.15) ].

Definition AUTO_PASS_THRESHOLD : Q := 4.0.
Definition AUTO_FAIL_THRESHOLD : Q := 2.5.

Definition get_decision (overall_score : Q) : string :=
  if Qge_bool overall_score AUTO_PASS_THRESHOLD then "auto_pass"
  else if Qlt_bool overall_score AUTO_FAIL_THRESHOLD then "auto_fail"
  else "human_review".

(** ** utils/evaluator.py *)

Section ContentEvaluator.

(** The two library functions the parser calls: [json.loads], and [float] on
    a [str] argument.  The evaluator is defined, and its properties hold, for
    whatever these two return. *)
Variable json_loads : string -> result pyval.
Variable float_of_str : string -> result Q.

(** [float(v)] *)
Definition py_float (v : pyval) : result Q :=
  match v with
  | PInt z => Ok (inject_Z z)
  | PFloat q => Ok q
  | PBool b => Ok (if b then 1 else 0)
  | PStr s => float_of_str s
  | PNone | PList _ | PDict _ => Raise TypeError
  end.

Definition _get_criteria (use_case : string) : result Criteria :=
  if String.eqb use_case "marketing_copy" then Ok MARKETING_COPY_CRITERIA
  else if String.eqb use_case "bilingual_compliance"
       then Ok BILINGUAL_COMPLIANCE_CRITERIA
  else Raise ValueError.

(** The text handed to [json.loads]: stripped, and without its first and last
    line when it starts with a code fence. *)
Definition unfence (response_text : string) : string :=
  let response_text := Str.strip response_text in
  if startswith "```" response_text
  then Str.join_lines (Str.slice_1_m1 (Str.split_lines response_text))
  else response_text.

(** The [CriterionScore] one turn of the loop over [criteria.items()] stores
    under [key]. *)
Definition criterion_entry (scores_dict : pyval) (key : string)
    (info : CriterionInfo) : result CriterionScore :=
  present <- py_contains key scores_dict ;;
  if (present : bool) then
    entry <- py_getitem scores_dict key ;;
    raw <- py_getitem entry "score" ;;
    s <- py_float raw ;;
    entry' <- py_getitem scores_dict key ;;
    expl <- py_getitem entry' "explanation" ;;
    Ok (mkCriterionScore s expl (info_weight info))
  else
    Ok (mkCriterionScore 3.0 (PStr "Score not provided by evaluator")
          (info_weight info)).

(** The loop: [ai_scores = {}], then [ai_scores[key] = ...] per criterion. *)
Definition convert_scores (scores_dict : pyval) (criteria : Criteria)
  : result ScoreMap :=
  fold_left (loop_step (criterion_entry scores_dict)) criteria (Ok []).

(** The body of the [try] block. *)
Definition parse_body (response_text : string) (criteria : Criteria)
  : result ScoreMap :=
  scores_dict <- json_loads (unfence response_text) ;;
  convert_scores scores_dict criteria.

(** The map the [except] block returns. *)
Definition default_scores (criteria : Criteria) : ScoreMap :=
  dict_comp
    (fun _ info =>
       mkCriterionScore 3.0 (PStr "Error parsing response") (info_weight info))
    criteria.

Definition _parse_claude_response (response_text : string)
    (criteria : Criteria) : ScoreMap :=
  try_except (parse_body response_text criteria)
    (fun _ => default_scores criteria).

Definition _calculate_overall_score (ai_scores : ScoreMap)
    (criteria : Criteria) : Q :=
  let totals :=
    fold_left
      (fun acc kv =>
         (fst acc + score (snd kv) * weight (snd kv), snd acc + weight (snd kv)))
      ai_scores (0, 0) in
  let total_score := fst totals in
  let total_weight := snd totals in
  if Qgt_bool total_weight 0
  then py_round (total_score / total_weight) 2
  else 3.0.

(** [evaluate_content].  The identifier, the time stamp and the outcome of the
    API call (the reply text, or the exception of the client) are inputs; the
    prompt only reaches the service and is not modelled. *)
Definition evaluate_content (uuid4 now : string) (reply : result string)
    (content use_case context : string) : result Evaluation :=
  criteria <- _get_criteria use_case ;;
  response_text <- reply ;;
  let ai_scores := _parse_claude_response response_text criteria in
  let overall_score := _calculate_overall_score ai_scores criteria in
  let decision := get_decision overall_score in
  Ok (mkEvaluation uuid4 now use_case content context
        ai_scores overall_score decision None None None None).

End ContentEvaluator.

(** ** app.py: the human-judgment section *)

(** [criteria[k]['weight']] *)
Definition criteria_weight (criteria : Criteria) (k : string) : result Q :=
  match dict_get k criteria with
  | Some info => Ok (info_weight info)
  | None => Raise KeyError
  end.

(** [human_scores], filled from one slider per criterion. *)
Definition read_sliders (slider : string -> Q) (criteria : Criteria) : dict Q :=
  fold_left
    (fun human_scores kv => dict_set (fst kv) (slider (fst kv)) human_scores)
    criteria [].

(** [d[k]] on a dictionary. *)
Definition dict_getitem {V : Type} (d : dict V) (k : string) : result V :=
  match dict_get k d with
  | Some v => Ok v
  | None => Raise KeyError
  end.

(** Lines 169-171: the overall human score. *)
Definition human_overall (criteria : Criteria) (human_scores : dict Q)
  : result Q :=
  terms <- list_comp_r
             (fun k =>
                v <- dict_getitem human_scores k ;;
                w <- criteria_weight criteria k ;;
                Ok (v * w))
             (keys human_scores) ;;
  let total_score := py_sum terms in
  total_weight_terms <- list_comp_r (criteria_weight criteria) (keys criteria) ;;
  let total_weight := py_sum total_weight_terms in
  q <- py_div total_score total_weight ;;
  Ok (py_round q 2).

(** Lines 177-180: the score map stored in the record. *)
Definition human_score_map (criteria : Criteria) (human_scores : dict Q)
  : result ScoreMap :=
  dict_comp_r
    (fun k v =>
       w <- criteria_weight criteria k ;;
       Ok (mkCriterionScore v (PStr "Human rating") w))
    human_scores.

(** Lines 167-183: what a click on "Submit Human Judgment" does to the record.
    An exception leaves it as it was: the assignments come last. *)
Definition submit_human_judgment (evaluation : Evaluation)
    (criteria : Criteria) (human_scores : dict Q) (human_feedback : string)
  : result Evaluation :=
  overall <- human_overall criteria human_scores ;;
  let decision := get_decision overall in
  scores <- human_score_map criteria human_scores ;;
  Ok (mkEvaluation (id evaluation) (timestamp evaluation)
        (use_case evaluation) (content evaluation) (context evaluation)
        (ai_scores evaluation) (ai_overall_score evaluation)
        (ai_decision evaluation)
        (Some scores) (Some overall) (Some decision) (Some human_feedback)).

(** Lines 112-187: one run of the section on the current record.  When a human
    score is already there the result is shown and no form is offered;
    otherwise the form is drawn, and handled when it was submitted. *)
Definition human_judgment_section (evaluation : Evaluation)
    (slider : string -> Q) (human_feedback : string) (submit_human : bool)
  : result Evaluation :=
  let criteria :=
    if String.eqb (use_case evaluation) "marketing_copy"
    then MARKETING_COPY_CRITERIA else BILINGUAL_COMPLIANCE_CRITERIA in
  if truthy_float (human_overall_score evaluation) then Ok evaluation
  else
    let human_scores := read_sliders slider criteria in
    if submit_human
    then submit_human_judgment evaluation criteria human_scores human_feedback
    else Ok evaluation.

(** ** app.py: the session, the Evaluate button, the history *)

(** [st.session_state]: the history of records, and the flag that shows the
    last one. *)
Record SessionState : Type := mkSessionState {
  evaluations : list Evaluation;
  show_last_eval : option bool
}.

(** Lines 27-28: a new session has an empty history. *)
Definition initial_session : SessionState := mkSessionState [] None.

(** Lines 73-92: one run of the script with the state of the Evaluate button.
    [outcome] is what [evaluator.evaluate_content] returns or raises for the
    content, the use case and the context of the form; it is called only when
    the button was pressed on a content that is not empty. *)
Definition evaluate_button (state : SessionState) (evaluate_btn : bool)
    (content : string) (outcome : result Evaluation) : SessionState :=
  if evaluate_btn then
    if String.eqb content EmptyString then state
    else
      try_except
        (evaluation <- outcome ;;
         Ok (mkSessionState (evaluations state ++ [evaluation]) (Some true)))
        (fun _ => mkSessionState (evaluations state) (Some false))
  else state.

(** [xs[-1]] on a list that may be empty. *)
Definition last_item {A : Type} (xs : list A) : option A :=
  match rev xs with
  | x :: _ => Some x
  | [] => None
  end.

(** Lines 95-96: the record the page shows, if any. *)
Definition shown (state : SessionState) : option Evaluation :=
  match show_last_eval state with
  | Some true => last_item (evaluations state)
  | _ => None
  end.

(** Lines 112-119: the entries under "Detailed Scores", one per criterion of
    the registry of the record's use case: the display name and the score
    object [evaluation.ai_scores[criterion_key]]. *)
Definition detailed_scores (evaluation : Evaluation)
  : result (list (string * CriterionScore)) :=
  let criteria :=
    if String.eqb (use_case evaluation) "marketing_copy"
    then MARKETING_COPY_CRITERIA else BILINGUAL_COMPLIANCE_CRITERIA in
  list_comp_r
    (fun kv =>
       score_obj <- dict_getitem (ai_scores evaluation) (fst kv) ;;
       Ok (name (snd kv), score_obj))
    criteria.



(** Lines 96-187 on the session: the human-judgment section works on the
    object [evaluations[-1]] itself, so what it assigns is assigned in the
    history. *)
Definition human_judgment_run (state : SessionState) (slider : string -> Q)
    (human_feedback : string) (submit_human : bool) : result SessionState :=
  match shown state with
  | None => Ok state
  | Some evaluation =>
      evaluation' <- human_judgment_section evaluation slider human_feedback
                       submit_human ;;
      Ok (mkSessionState (removelast (evaluations state) ++ [evaluation'])
            (show_last_eval state))
  end.

(** Lines 201-203: [sum(1 for e in evaluations if e.ai_decision == decision)]. *)
Definition count_decision (decision : string) (history : list Evaluation)
  : nat :=
  fold_left Nat.add
    (map (fun _ => 1%nat)
       (filter (fun e => String.eqb (ai_decision e) decision) history))
    0%nat.

Record Summary : Type := mkSummary {
  total : nat;
  n_auto_pass : nat;
  n_auto_fail : nat;
  n_human_review : nat;
  avg_ai_score : Q
}.

(** Lines 193-211: the summary of the history tab, [None] when the history is
    empty. *)
Definition history_summary (history : list Evaluation)
  : result (option Summary) :=
  match history with
  | [] => Ok None
  | _ :: _ =>
      let auto_pass := count_decision "auto_pass" history in
      let auto_fail := count_decision "auto_fail" history in
      let human_review := count_decision "human_review" history in
      avg <- py_div (py_sum (map ai_overall_score history))
               (inject_Z (Z.of_nat (List.length history))) ;;
      Ok (Some (mkSummary (List.length history) auto_pass auto_fail
                  human_review avg))
  end.

(** [enumerate(xs)] *)
Definition enumerate {A : Type} (xs : list A) : list (nat * A) :=
  combine (seq 0 (List.length xs)) xs.

(** Lines 216-217: the rows of the history, each with the number of its
    title, [len(evaluations) - idx]. *)
Definition history_rows (history : list Evaluation)
  : list (nat * Evaluation) :=
  map (fun p => ((List.length history - fst p)%nat, snd p))
    (enumerate (rev history)).

(** Line 234: [[e.to_dict() for e in evaluations]]. *)
Definition export_data (history : list Evaluation) : list (dict pyval) :=
  map to_dict history.

(** ** A reader for JSON texts

    [json.loads] and [float] belong to the Python library.  The definitions
    above take them as parameters; this module gives one reader of each kind
    to run the evaluator on concrete replies.  It follows the grammar of the
    [json] module: white space is space, tab, line feed and carriage return; a
    number is an [int] unless it has a fraction or an exponent; a repeated key
    keeps its first position and its last value.  Outside its range: escapes
    beyond code point 255, and the non-finite literals. *)

Module Json.

Local Open Scope char_scope.

Definition is_ws (c : ascii) : bool :=
  Ascii.eqb c " " || Ascii.eqb c "009" || Ascii.eqb c "010" || Ascii.eqb c "013".

Fixpoint skip_ws (s : string) : string :=
  match s with
  | String c s' => if is_ws c then skip_ws s' else s
  | EmptyString => s
  end.

Definition is_digit (c : ascii) : bool :=
  let n := nat_of_ascii c in ((48 <=? n) && (n <=? 57))%nat.

Definition digit_val (c : ascii) : Z := (Z.of_nat (nat_of_ascii c) - 48)%Z.

(** A maximal run of digits: its value on top of [acc], its length, the rest. *)
Fixpoint read_digits (acc : Z) (n : nat) (s : string) : Z * nat * string :=
  match s with
  | String c s' =>
      if is_digit c then read_digits (acc * 10 + digit_val c)%Z (S n) s'
      else (acc, n, s)
  | EmptyString => (acc, n, s)
  end.

(** A sign in front of digits: a minus, or a plus where one is allowed. *)
Definition read_sign (plus : bool) (s : string) : bool * string :=
  match s with
  | String c t =>
      if Ascii.eqb c "-" then (true, t)
      else if plus && Ascii.eqb c "+" then (false, t)
      else (false, s)
  | EmptyString => (false, s)
  end.

(** An optional fraction: a point and at least one digit. *)
Definition read_frac (s : string) : option (Z * nat) * string :=
  match s with
  | String c s' =>
      if Ascii.eqb c "." then
        match read_digits 0 0 s' with
        | (_, O, _) => (None, s)
        | (v, n, r) => (Some (v, n), r)
        end
      else (None, s)
  | EmptyString => (None, s)
  end.

(** An optional exponent: e or E, an optional sign, at least one digit. *)
Definition read_exp (s : string) : option Z * string :=
  match s with
  | String c s' =>
      if Ascii.eqb c "e" || Ascii.eqb c "E" then
        let (neg, s'') := read_sign true s' in
        match read_digits 0 0 s'' with
        | (_, O, _) => (None, s)
        | (v, _, r) => (Some (if neg then - v else v)%Z, r)
        end
      else (None, s)
  | EmptyString => (None, s)
  end.

(** An optional minus sign and the integer part: a lone 0, or digits that do
    not start with 0. *)
Definition read_int (s : string) : option (bool * Z * string) :=
  let (neg, s1) := read_sign false s in
  match s1 with
  | String c t =>
      if Ascii.eqb c "0" then Some (neg, 0%Z, t)
      else if is_digit c then
        match read_digits 0 0 s1 with
        | (v, _, r) => Some (neg, v, r)
        end
      else None
  | EmptyString => None
  end.

(** The number with integer part [i], fraction digits [frac] and exponent
    [e]: its digits over a power of ten, as the decimal literals of [Q]. *)
Definition decimal (neg : bool) (i : Z) (frac : option (Z * nat))
    (e : option Z) : Q :=
  let (num, places) :=
    match frac with
    | Some (v, n) => ((i * Zpos (pow10 n) + v)%Z, n)
    | None => (i, O)
    end in
  let num := if neg then (- num)%Z else num in
  match e with
  | Some (Zpos k) => (num * Zpos (pow10 (Pos.to_nat k)))%Z # pow10 places
  | Some (Zneg k) => num # pow10 (places + Pos.to_nat k)
  | _ => num # pow10 places
  end.

Definition read_number (s : string) : option (pyval * string) :=
  match read_int s with
  | None => None
  | Some (neg, i, s1) =>
      let (frac, s2) := read_frac s1 in
      let (e, s3) := read_exp s2 in
      match frac, e with
      | None, None => Some (PInt (if neg then - i else i)%Z, s3)
      | _, _ => Some (PFloat (decimal neg i frac e), s3)
      end
  end.

Definition hex_val (c : ascii) : option nat :=
  let n := nat_of_ascii c in
  if ((48 <=? n) && (n <=? 57))%nat then Some (n - 48)%nat
  else if ((97 <=? n) && (n <=? 102))%nat then Some (n - 87)%nat
  else if ((65 <=? n) && (n <=? 70))%nat then Some (n - 55)%nat
  else None.

Definition DQUOTE : ascii := ascii_of_nat 34.

Definition escape (c : ascii) : option ascii :=
  if Ascii.eqb c DQUOTE then Some DQUOTE
  else if Ascii.eqb c "\" then Some "\"
  else if Ascii.eqb c "/" then Some "/"
  else if Ascii.eqb c "b" then Some "008"
  else if Ascii.eqb c "f" then Some "012"
  else if Ascii.eqb c "n" then Some "010"
  else if Ascii.eqb c "r" then Some "013"
  else if Ascii.eqb c "t" then Some "009"
  else None.

(** The code point of the four hexadecimal digits of a \u escape, when it is
    below 256. *)
Definition read_hex4 (a b c d : ascii) : option ascii :=
  if Ascii.eqb a "0" && Ascii.eqb b "0" then
    match hex_val c, hex_val d with
    | Some x, Some y => Some (ascii_of_nat (16 * x + y))
    | _, _ => None
    end
  else None.

(** The characters after an opening quote, up to the closing one. *)
Fixpoint read_string (s : string) : result (string * string) :=
  match s with
  | EmptyString => Raise JSONDecodeError
  | String c s' =>
      if Ascii.eqb c DQUOTE then Ok (EmptyString, s')
      else if Ascii.eqb c "\" then
        match s' with
        | String e r =>
            if Ascii.eqb e "u" then
              match r with
              | String h1 (String h2 (String h3 (String h4 r'))) =>
                  match read_hex4 h1 h2 h3 h4 with
                  | Some x =>
                      p <- read_string r' ;; Ok (String x (fst p), snd p)
                  | None => Raise JSONDecodeError
                  end
              | _ => Raise JSONDecodeError
              end
            else
              match escape e with
              | Some x => p <- read_string r ;; Ok (String x (fst p), snd p)
              | None => Raise JSONDecodeError
              end
        | EmptyString => Raise JSONDecodeError
        end
      else if (nat_of_ascii c <? 32)%nat then Raise JSONDecodeError
      else p <- read_string s' ;; Ok (String c (fst p), snd p)
  end.

(** [drop n s]: [s] without its first [n] characters. *)
Fixpoint drop (n : nat) (s : string) : string :=
  match n, s with
  | S n', String _ s' => drop n' s'
  | _, _ => s
  end.

(** The three literals. *)
Definition read_literal (s : string) : option (pyval * string) :=
  if startswith "null" s then Some (PNone, drop 4 s)
  else if startswith "true" s then Some (PBool true, drop 4 s)
  else if startswith "false" s then Some (PBool false, drop 5 s)
  else None.

(** The text after a value inside an object or an array: white space, then a
    comma ([inl] the text after it), or the closing character [close] ([inr]
    the text after it). *)
Definition read_delimiter (close : ascii) (s : string)
  : result (string + string) :=
  match skip_ws s with
  | String c t =>
      if Ascii.eqb c "," then Ok (inl (skip_ws t))
      else if Ascii.eqb c close then Ok (inr t)
      else Raise JSONDecodeError
  | EmptyString => Raise JSONDecodeError
  end.

(** A value, the members of an object after its brace, the elements of an
    array after its bracket.  Every call spends one unit of [fuel]; between
    two nested calls the reader passes a bracket, a brace, a key or a comma,
    so a text with [n] characters other than white space needs no more than
    [2 * n + 2]. *)
Fixpoint read_value (fuel : nat) (s : string) : result (pyval * string) :=
  match fuel with
  | O => Raise RecursionError
  | S fuel' =>
      match s with
      | String c s1 =>
          if Ascii.eqb c "{" then
            match skip_ws s1 with
            | String c2 s2 =>
                if Ascii.eqb c2 "}" then Ok (PDict [], s2)
                else
                  p <- read_members fuel' (String c2 s2) [] ;;
                  Ok (PDict (fst p), snd p)
            | EmptyString => Raise JSONDecodeError
            end
          else if Ascii.eqb c "[" then
            match skip_ws s1 with
            | String c2 s2 =>
                if Ascii.eqb c2 "]" then Ok (PList [], s2)
                else
                  p <- read_elements fuel' (String c2 s2) ;;
                  Ok (PList (fst p), snd p)
            | EmptyString => Raise JSONDecodeError
            end
          else if Ascii.eqb c DQUOTE then
            p <- read_string s1 ;; Ok (PStr (fst p), snd p)
          else
            match read_literal s with
            | Some p => Ok p
            | None =>
                match read_number s with
                | Some p => Ok p
                | None => Raise JSONDecodeError
                end
            end
      | EmptyString => Raise JSONDecodeError
      end
  end

with read_members (fuel : nat) (s : string) (acc : dict pyval)
  : result (dict pyval * string) :=
  match fuel with
  | O => Raise RecursionError
  | S fuel' =>
      match s with
      | String c s1 =>
          if Ascii.eqb c DQUOTE then
            k <- read_string s1 ;;
            match skip_ws (snd k) with
            | String c2 s2 =>
                if Ascii.eqb c2 ":" then
                  v <- read_value fuel' (skip_ws s2) ;;
                  let acc' := dict_set (fst k) (fst v) acc in
                  d <- read_delimiter "}" (snd v) ;;
                  match d with
                  | inl s3 => read_members fuel' s3 acc'
                  | inr s3 => Ok (acc', s3)
                  end
                else Raise JSONDecodeError
            | EmptyString => Raise JSONDecodeError
            end
          else Raise JSONDecodeError
      | EmptyString => Raise JSONDecodeError
      end
  end

with read_elements (fuel : nat) (s : string) : result (list pyval * string) :=
  match fuel with
  | O => Raise RecursionError
  | S fuel' =>
      v <- read_value fuel' s ;;
      d <- read_delimiter "]" (snd v) ;;
      match d with
      | inl s1 =>
          p <- read_elements fuel' s1 ;;
          Ok (fst v :: fst p, snd p)
      | inr s1 => Ok ([fst v], s1)
      end
  end.

(** [json.loads(s)] *)
Definition loads (s : string) : result pyval :=
  p <- read_value (2 * Str.count_nonspace s + 2) (skip_ws s) ;;
  match skip_ws (snd p) with
  | EmptyString => Ok (fst p)
  | _ => Raise JSONDecodeError
  end.

(** [float(s)] on a [str]: white space around an optional sign and a decimal
    number - digits, a point, digits, with a digit on one side of the point
    at least - with an optional exponent.  Outside its range: digit groups
    with underscores, and the names of the non-finite floats. *)
Definition float_of_str (s : string) : result Q :=
  let (neg, s1) := read_sign true (Str.strip s) in
  match read_digits 0 0 s1 with
  | (i, n1, s2) =>
      let '(v, n2, s3) :=
        match s2 with
        | String c t =>
            if Ascii.eqb c "." then read_digits 0 0 t else (0%Z, O, s2)
        | EmptyString => (0%Z, O, s2)
        end in
      match (n1 + n2)%nat with
      | O => Raise ValueError
      | S _ =>
          let (e, s4) := read_exp s3 in
          match s4 with
          | EmptyString =>
              Ok (decimal neg i (match n2 with O => None | _ => Some (v, n2) end) e)
          | _ => Raise ValueError
          end
      end
  end.

End Json.

(** ** Vocabulary of the statements *)


(** The entry of the [except] block, and the entry for a missing key. *)
Definition error_entry (info : CriterionInfo) : CriterionScore :=
  mkCriterionScore 3.0 (PStr "Error parsing response") (info_weight info).

Definition missing_entry (info : CriterionInfo) : CriterionScore :=
  mkCriterionScore 3.0 (PStr "Score not provided by evaluator")
    (info_weight info).

(** [sum(score_i * weight_i)] and [sum(weight_i)] over the entries of a score
    map, as the specification writes the weighted mean. *)
Definition sum_score_weight (m : ScoreMap) : Q :=
  fold_right (fun kv acc => score (snd kv) * weight (snd kv) + acc) 0 m.

Definition sum_weight (m : ScoreMap) : Q :=
  fold_right (fun kv acc => weight (snd kv) + acc) 0 m.


(** The weight a registry gives to a key. *)
Definition weight_of (criteria : Criteria) (k : string) : Q :=
  match dict_get k criteria with
  | Some info => info_weight info
  | None => 0
  end.

(** The score map the human-judgment section stores for [human_scores]. *)
Definition human_entries (criteria : Criteria) (human_scores : dict Q)
  : ScoreMap :=
  map (fun kv =>
         (fst kv,
          mkCriterionScore (snd kv) (PStr "Human rating")
            (weight_of criteria (fst kv))))
    human_scores.

(** A criteria set of the data model: distinct keys, at least one criterion,
    positive weights. *)
Definition criteria_set (criteria : Criteria) : Prop :=
  NoDup (keys criteria) /\ criteria <> [] /\
  Forall (fun kv => 0 < info_weight (snd kv)) criteria.

(** A record that already carries a human judgment. *)
Definition judged_record : Evaluation :=
  mkEvaluation "id-1" "2025-01-01T00:00:00" "marketing_copy" "Hola" EmptyString
    (default_scores MARKETING_COPY_CRITERIA) 3.0 "human_review"
    (Some (human_entries MARKETING_COPY_CRITERIA
             (read_sliders (fun _ => 4.5) MARKETING_COPY_CRITERIA)))
    (Some 4.5) (Some "auto_pass") (Some "reads well").

(** A line: a text without line feed. *)
Fixpoint no_LF (s : string) : bool :=
  match s with
  | EmptyString => true
  | String c s' => negb (Ascii.eqb c Str.LF) && no_LF s'
  end.

(** The text [j] between an opening fence line, three backquotes and a tag
    such as "json", and a closing fence line. *)
Definition fenced (tag j : string) : string :=
  (("```" ++ tag) ++ String Str.LF (j ++ String Str.LF "```"))%string.

(** A reading result with [w] appended to the rest of the text. *)
Definition with_rest {A : Type} (w : string) (p : A * string) : A * string :=
  (fst p, (snd p ++ w)%string).

Definition string_rest (w : string) (r : result (string * string))
  : result (string * string) :=
  p <- r ;; Ok (with_rest w p).

(** A text without white space. *)
Fixpoint no_space (s : string) : bool :=
  match s with
  | EmptyString => true
  | String c s' => negb (Str.is_space c) && no_space s'
  end.

(** A text that begins with a character other than white space. *)
Definition solid (s : string) : Prop :=
  exists c t, s = String c t /\ Str.is_space c = false.

(** A decision procedure for the distinctness of keys. *)
Fixpoint distinct (ks : list string) : bool :=
  match ks with
  | [] => true
  | k :: ks' => negb (existsb (String.eqb k) ks') && distinct ks'
  end.

(** ** Sample replies

    The texts are written with an apostrophe where the reply has a double
    quote; [dq] puts the double quotes back. *)

Fixpoint dq (s : string) : string :=
  match s with
  | EmptyString => EmptyString
  | String c s' =>
      String (if Ascii.eqb c "'" then Json.DQUOTE else c) (dq s')
  end.

(** A reply with one criterion, whose score is [null]. *)
Definition reply_null_score : string :=
  dq "{'persuasiveness': {'score': null, 'explanation': 'strong'}}".

(** A reply with two well-formed criteria and a key that is no criterion. *)
Definition reply_partial : string :=
  dq "{'persuasiveness': {'score': 4, 'explanation': 'strong'}, 'brand_voice': {'score': '2.5', 'explanation': 'flat'}, 'mood': 7}".


(** ** Vocabulary of the further properties *)

(** The order of the three decisions, from worst to best. *)
Definition decision_rank (decision : string) : nat :=
  if String.eqb decision "auto_pass" then 2
  else if String.eqb decision "human_review" then 1
  else 0.

(** The registry the application shows for a use case (app.py, line 112). *)
Definition registry_of (use_case : string) : Criteria :=
  if String.eqb use_case "marketing_copy"
  then MARKETING_COPY_CRITERIA else BILINGUAL_COMPLIANCE_CRITERIA.

(** What holds of every record of a session: its use case is one of the two,
    its AI scores are those of the parser on the registry of the use case,
    its overall score and decision are those of the aggregator and of the
    policy, and its human fields are all absent, or all set by a
    submission. *)
Definition sound_human (e : Evaluation) : Prop :=
  match human_overall_score e with
  | None =>
      human_scores e = None /\ human_decision e = None /\
      human_feedback e = None
  | Some h =>
      exists m fb,
        human_scores e = Some m /\
        keys m = keys (registry_of (use_case e)) /\
        map (fun kv => weight (snd kv)) m
        = map (fun kv => info_weight (snd kv)) (registry_of (use_case e)) /\
        h = _calculate_overall_score m (registry_of (use_case e)) /\
        human_decision e = Some (get_decision h) /\
        human_feedback e = Some fb
  end.

Definition sound_record (e : Evaluation) : Prop :=
  (use_case e = "marketing_copy" \/ use_case e = "bilingual_compliance") /\
  keys (ai_scores e) = keys (registry_of (use_case e)) /\
  map (fun kv => weight (snd kv)) (ai_scores e)
  = map (fun kv => info_weight (snd kv)) (registry_of (use_case e)) /\
  ai_overall_score e
  = _calculate_overall_score (ai_scores e) (registry_of (use_case e)) /\
  ai_decision e = get_decision (ai_overall_score e) /\
  sound_human e.

(** The sessions a user can reach: from the initial one, by runs of the
    script with the Evaluate button and by runs of the human-judgment
    section. *)
Inductive reachable : SessionState -> Prop :=
| reach_initial : reachable initial_session
| reach_evaluate :
    forall (state : SessionState)
           (json_loads : string -> result pyval)
           (float_of_str : string -> result Q)
           (uuid4 now : string) (reply : result string)
           (evaluate_btn : bool) (content use_case context : string),
      reachable state ->
      reachable
        (evaluate_button state evaluate_btn content
           (evaluate_content json_loads float_of_str uuid4 now reply
              content use_case context))
| reach_human :
    forall (state state' : SessionState) (slider : string -> Q)
           (human_feedback : string) (submit_human : bool),
      reachable state ->
      human_judgment_run state slider human_feedback submit_human = Ok state' ->
      reachable state'.

(** A session after one evaluation, the record of that evaluation, and the
    session after the judgment of the record. *)
Definition sample_record : Evaluation :=
  let ai_scores :=
    _parse_claude_response Json.loads Json.float_of_str reply_partial
      MARKETING_COPY_CRITERIA in
  let overall_score :=
    _calculate_overall_score ai_scores MARKETING_COPY_CRITERIA in
  mkEvaluation "id-1" "2025-01-01T00:00:00" "marketing_copy" "Hola"
    EmptyString ai_scores overall_score (get_decision overall_score)
    None None None None.

Definition sample_session : SessionState :=
  evaluate_button initial_session true "Hola"
    (evaluate_content Json.loads Json.float_of_str "id-1"
       "2025-01-01T00:00:00" (Ok reply_partial) "Hola" "marketing_copy"
       EmptyString).

Definition sample_judged_session : SessionState :=
  match human_judgment_run sample_session (fun _ => 4.5) "reads well" true with
  | Ok state => state
  | Raise _ => sample_session
  end.



(** The fields of [Evaluation] without a default value. *)
Definition required_fields : list string :=
  [ "id"; "timestamp"; "use_case"; "content"; "context"; "ai_scores";
    "ai_overall_score"; "ai_decision" ].

(** * Theorems *)

(** ** The decision policy *)

Lemma get_decision_cases (s : Q) :
  (4.0 <= s /\ get_decision s = "auto_pass") \/
  (s < 2.5 /\ get_decision s = "auto_fail") \/
  ((2.5 <= s /\ s < 4.0) /\ get_decision s = "human_review").
Proof.
  unfold get_decision, Qge_bool, Qlt_bool.
  unfold AUTO_PASS_THRESHOLD, AUTO_FAIL_THRESHOLD.
  destruct (Qle_bool 4.0 s) eqn:Hp.
  - left. split; [apply Qle_bool_iff; exact Hp | reflexivity].
  - assert (Hn : s < 4.0).
    { apply Qnot_le_lt. intro H. apply Qle_bool_iff in H. congruence. }
    destruct (Qle_bool 2.5 s) eqn:Hf; simpl.
    + right; right. apply Qle_bool_iff in Hf. auto.
    + right; left. split; [| reflexivity].
      apply Qnot_le_lt. intro H. apply Qle_bool_iff in H. congruence.
Qed.

(** C1. [get_decision] is total (it is a function of [Q], it raises nothing),
    and for every score [s] it answers [auto_pass] exactly when [s >= 4.0],
    [auto_fail] exactly when [s < 2.5], and [human_review] exactly when neither
    holds; at the four boundary probes: 4.0 passes, 3.999 and 2.5 go to review,
    2.499 fails. *)
Theorem get_decision_thresholds :
  (forall s : Q,
      (get_decision s = "auto_pass" <-> 4.0 <= s) /\
      (get_decision s = "auto_fail" <-> s < 2.5) /\
      (get_decision s = "human_review" <-> ~ 4.0 <= s /\ ~ s < 2.5)) /\
  get_decision 4.0 = "auto_pass" /\
  get_decision 3.999 = "human_review" /\
  get_decision 2.5 = "human_review" /\
  get_decision 2.499 = "auto_fail".
Proof.
  split; [| repeat split; reflexivity].
  intro s.
  destruct (get_decision_cases s) as [[H E] | [[H E] | [[H1 H2] E]]];
    rewrite E; (split; [| split]); split; intro G;
    try discriminate; try reflexivity; lra.
Qed.


(** ** Dictionaries *)

Local Open Scope list_scope.

Section DictFacts.

Context {V : Type}.

Lemma dict_get_notin (k : string) (d : dict V) :
  ~ In k (keys d) -> dict_get k d = None.
Proof.
  induction d as [| [k' v] d IH]; simpl; intro H; [reflexivity |].
  destruct (String.eqb_spec k k') as [-> | Hne].
  - exfalso. apply H. now left.
  - apply IH. intro Hin. apply H. now right.
Qed.

Lemma dict_get_in (k : string) (d : dict V) :
  In k (keys d) -> exists v, dict_get k d = Some v.
Proof.
  induction d as [| [k' v] d IH]; simpl; intro H; [contradiction |].
  destruct (String.eqb_spec k k') as [-> | Hne].
  - now exists v.
  - destruct H as [H | H]; [congruence | auto].
Qed.

Lemma dict_get_nodup (k : string) (v : V) (d : dict V) :
  NoDup (keys d) -> In (k, v) d -> dict_get k d = Some v.
Proof.
  induction d as [| [k' v'] d IH]; simpl; intros Hnd Hin; [contradiction |].
  inversion Hnd as [| ? ? Hfresh Hnd']; subst.
  destruct Hin as [Heq | Hin].
  - inversion Heq; subst. now rewrite String.eqb_refl.
  - destruct (String.eqb_spec k k') as [-> | Hne]; [| auto].
    exfalso. apply Hfresh. change (In (fst (k', v)) (map fst d)).
    now apply in_map.
Qed.

Lemma dict_set_fresh (k : string) (v : V) (d : dict V) :
  ~ In k (keys d) -> dict_set k v d = d ++ [(k, v)].
Proof.
  induction d as [| [k' v'] d IH]; simpl; intro H; [reflexivity |].
  destruct (String.eqb_spec k k') as [-> | Hne].
  - exfalso. apply H. now left.
  - f_equal. apply IH. intro Hin. apply H. now right.
Qed.

Lemma dict_mem_true (k : string) (d : dict V) :
  dict_mem k d = true <-> exists v, dict_get k d = Some v.
Proof.
  unfold dict_mem. destruct (dict_get k d) as [v |]; split; intro H.
  - now exists v.
  - reflexivity.
  - discriminate.
  - destruct H; discriminate.
Qed.

Lemma keys_app (d1 d2 : dict V) : keys (d1 ++ d2) = keys d1 ++ keys d2.
Proof. apply map_app. Qed.

End DictFacts.

(** A loop that stores one computed value per item of a dictionary, and stops
    at the first exception. *)
Section DictLoop.

Context {A W : Type}.
Variable f : string -> A -> result W.

Local Abbreviation loop_step := (loop_step f).
Local Abbreviation computed := (computed f).

Lemma loop_raise (l : dict A) (e : exn) :
  fold_left loop_step l (Raise e) = Raise e.
Proof. induction l; simpl; auto. Qed.

Lemma computed_keys (l : dict A) (m : dict W) :
  Forall2 computed l m -> keys m = keys l.
Proof.
  induction 1 as [| kv kw l m [Hk _] _ IH]; simpl; [reflexivity |].
  now rewrite Hk, IH.
Qed.

Lemma loop_inv (l : dict A) :
  forall acc m,
    NoDup (keys acc ++ keys l) ->
    fold_left loop_step l (Ok acc) = Ok m ->
    exists m', m = acc ++ m' /\ Forall2 computed l m'.
Proof.
  induction l as [| [k x] l IH]; simpl; intros acc m Hnd Hm.
  - exists []. inversion Hm; subst. now rewrite app_nil_r.
  - destruct (f k x) as [w | e] eqn:Hf; simpl in Hm.
    + rewrite dict_set_fresh in Hm.
      * apply IH in Hm.
        -- destruct Hm as (m' & -> & Hall).
           exists ((k, w) :: m'). rewrite <- app_assoc. split; [reflexivity |].
           constructor; [split; simpl; auto | exact Hall].
        -- rewrite keys_app, <- app_assoc. exact Hnd.
      * apply NoDup_remove_2 in Hnd. intro Hin. apply Hnd.
        apply in_or_app. now left.
    + rewrite loop_raise in Hm. discriminate.
Qed.

Lemma loop_ok (l : dict A) :
  forall acc m',
    NoDup (keys acc ++ keys l) ->
    Forall2 computed l m' ->
    fold_left loop_step l (Ok acc) = Ok (acc ++ m').
Proof.
  induction l as [| [k x] l IH]; simpl; intros acc m' Hnd Hall.
  - inversion Hall; subst. now rewrite app_nil_r.
  - inversion Hall as [| ? [k' w] ? m'' [Hk Hf] Hall']; subst.
    simpl in Hk, Hf. subst k'. rewrite Hf. simpl.
    rewrite dict_set_fresh.
    + rewrite IH with (m' := m'').
      * now rewrite <- app_assoc.
      * rewrite keys_app, <- app_assoc. exact Hnd.
      * exact Hall'.
    + apply NoDup_remove_2 in Hnd. intro Hin. apply Hnd.
      apply in_or_app. now left.
Qed.

Lemma loop_raises (l : dict A) (k : string) (x : A) :
  In (k, x) l -> raises (f k x) ->
  forall acc, raises (fold_left loop_step l acc).
Proof.
  induction l as [| kv l IH]; simpl; intros Hin Hr acc; [contradiction |].
  destruct Hin as [-> | Hin]; [| now apply IH].
  destruct Hr as [e He].
  assert (Hs : raises (loop_step acc (k, x))).
  { unfold loop_step. destruct acc as [a | e']; simpl;
      [rewrite He |]; eexists; reflexivity. }
  destruct Hs as [e' He']. rewrite He', loop_raise. eexists; reflexivity.
Qed.

End DictLoop.

Section DictLoopLookup.

Context {A W : Type}.
Variable f : string -> A -> result W.




End DictLoopLookup.

Lemma dict_comp_fold {V W : Type} (f : string -> V -> W) (d : dict V) :
  forall acc,
    NoDup (keys acc ++ keys d) ->
    fold_left (fun a kv => dict_set (fst kv) (f (fst kv) (snd kv)) a) d acc
    = acc ++ map (fun kv => (fst kv, f (fst kv) (snd kv))) d.
Proof.
  induction d as [| [k x] d IH]; simpl; intros acc Hnd.
  - now rewrite app_nil_r.
  - rewrite dict_set_fresh.
    + rewrite IH; [now rewrite <- app_assoc |].
      rewrite keys_app, <- app_assoc. exact Hnd.
    + apply NoDup_remove_2 in Hnd. intro Hin. apply Hnd.
      apply in_or_app. now left.
Qed.

Lemma dict_comp_map {V W : Type} (f : string -> V -> W) (d : dict V) :
  NoDup (keys d) ->
  dict_comp f d = map (fun kv => (fst kv, f (fst kv) (snd kv))) d.
Proof. intro H. unfold dict_comp. now rewrite dict_comp_fold. Qed.

(** ** The response parser *)

Section ParserFacts.

Variable json_loads : string -> result pyval.
Variable float_of_str : string -> result Q.

Local Abbreviation parse := (_parse_claude_response json_loads float_of_str).
Local Abbreviation entry_of := (criterion_entry float_of_str).

Lemma default_scores_map (criteria : Criteria) :
  NoDup (keys criteria) ->
  default_scores criteria = map (fun kv => (fst kv, error_entry (snd kv))) criteria.
Proof. intro H. unfold default_scores. now rewrite dict_comp_map. Qed.

Lemma parse_raise (text : string) (criteria : Criteria) :
  raises (parse_body json_loads float_of_str text criteria) ->
  parse text criteria = default_scores criteria.
Proof.
  intros [e He]. unfold _parse_claude_response. now rewrite He.
Qed.

Lemma parse_ok (text : string) (criteria : Criteria) (v : pyval) :
  json_loads (unfence text) = Ok v ->
  parse_body json_loads float_of_str text criteria
  = convert_scores float_of_str v criteria.
Proof. intro H. unfold parse_body. now rewrite H. Qed.


Lemma entry_of_present (d : dict pyval) (key : string) (info : CriterionInfo)
    (entry : pyval) :
  dict_get key d = Some entry ->
  entry_of (PDict d) key info
  = (raw <- py_getitem entry "score" ;;
     s <- py_float float_of_str raw ;;
     expl <- py_getitem entry "explanation" ;;
     Ok (mkCriterionScore s expl (info_weight info))).
Proof.
  intro H. unfold criterion_entry. simpl. unfold dict_mem. rewrite H. simpl.
  destruct (py_getitem entry "score") as [raw | e]; simpl; [| reflexivity].
  destruct (py_float float_of_str raw) as [s | e]; reflexivity.
Qed.


Lemma entry_of_corrupt (d : dict pyval) (key : string) (info : CriterionInfo)
    (entry : pyval) :
  dict_get key d = Some entry ->
  raises (py_getitem entry "score") \/
  raises (py_getitem entry "explanation") \/
  (exists raw, py_getitem entry "score" = Ok raw /\
               raises (py_float float_of_str raw)) ->
  raises (entry_of (PDict d) key info).
Proof.
  intros Hd H. rewrite (entry_of_present _ _ _ _ Hd).
  destruct H as [[e He] | [[e He] | (raw & Hr & [e He])]].
  - rewrite He. now exists e.
  - destruct (py_getitem entry "score") as [raw | e']; simpl;
      [| now exists e'].
    destruct (py_float float_of_str raw) as [s | e']; simpl;
      [| now exists e'].
    rewrite He. now exists e.
  - rewrite Hr. simpl. rewrite He. now exists e.
Qed.

(** The weight of every stored entry is the registry's. *)
Lemma entry_of_weight (v : pyval) (key : string) (info : CriterionInfo)
    (cs : CriterionScore) :
  entry_of v key info = Ok cs -> weight cs = info_weight info.
Proof.
  unfold criterion_entry. intro H.
  destruct (py_contains key v) as [[|] | e]; simpl in H; try discriminate.
  - destruct (py_getitem v key) as [entry | e]; simpl in H; try discriminate.
    destruct (py_getitem entry "score") as [raw | e]; simpl in H;
      try discriminate.
    destruct (py_float float_of_str raw) as [s | e]; simpl in H;
      try discriminate.
    destruct (py_getitem entry "explanation") as [expl | e]; simpl in H;
      try discriminate.
    now inversion H.
  - now inversion H.
Qed.

(** The result of the parser is one of two maps, each with one entry per
    criterion, in the order of the registry. *)
Lemma parse_shape (text : string) (criteria : Criteria) :
  NoDup (keys criteria) ->
  parse text criteria = default_scores criteria \/
  exists v, json_loads (unfence text) = Ok v /\
            Forall2 (computed (entry_of v)) criteria (parse text criteria).
Proof.
  intro Hnd. unfold _parse_claude_response.
  destruct (parse_body json_loads float_of_str text criteria) as [m | e] eqn:Hb;
    simpl; [right | now left].
  unfold parse_body in Hb.
  destruct (json_loads (unfence text)) as [v | e]; simpl in Hb;
    [| discriminate].
  exists v. split; [reflexivity |].
  apply loop_inv in Hb; [| exact Hnd].
  now destruct Hb as (m' & -> & Hall).
Qed.

Lemma parse_keys (text : string) (criteria : Criteria) :
  NoDup (keys criteria) -> keys (parse text criteria) = keys criteria.
Proof.
  intro Hnd. destruct (parse_shape text criteria Hnd) as [-> | (v & _ & Hall)].
  - rewrite default_scores_map by exact Hnd. unfold keys.
    rewrite map_map. reflexivity.
  - exact (computed_keys _ _ _ Hall).
Qed.

End ParserFacts.

Lemma distinct_NoDup (ks : list string) : distinct ks = true -> NoDup ks.
Proof.
  induction ks as [| k ks IH]; simpl; intro H; constructor.
  - apply andb_prop in H. destruct H as [H _]. intro Hin.
    apply negb_true_iff in H.
    assert (Hex : existsb (String.eqb k) ks = true).
    { apply existsb_exists. exists k. split; [exact Hin |].
      apply String.eqb_refl. }
    congruence.
  - apply IH. apply andb_prop in H. tauto.
Qed.

(** C2. The parser returns a score map on every reply text and for every
    criteria set - it is a function into [ScoreMap], nothing escapes the
    [except] block - and the keys of that map are the keys of the criteria
    set, in the same order.  When [json.loads] rejects the text, every
    criterion gets score 3.0, explanation "Error parsing response" and the
    weight of the registry; this is so for the text "not json". *)
Theorem parse_never_fails :
  forall (json_loads : string -> result pyval)
         (float_of_str : string -> result Q)
         (text : string) (criteria : Criteria),
    NoDup (keys criteria) ->
    keys (_parse_claude_response json_loads float_of_str text criteria)
    = keys criteria /\
    (raises (json_loads (unfence text)) ->
     _parse_claude_response json_loads float_of_str text criteria
     = map (fun kv =>
              (fst kv,
               mkCriterionScore 3.0 (PStr "Error parsing response")
                 (info_weight (snd kv))))
         criteria) /\
    _parse_claude_response Json.loads float_of_str "not json" criteria
    = map (fun kv =>
             (fst kv,
              mkCriterionScore 3.0 (PStr "Error parsing response")
                (info_weight (snd kv))))
        criteria.
Proof.
  intros json_loads float_of_str text criteria Hnd. split; [| split].
  - now apply parse_keys.
  - intros [e He]. rewrite parse_raise.
    + now apply default_scores_map.
    + exists e. unfold parse_body. now rewrite He.
  - rewrite parse_raise.
    + now apply default_scores_map.
    + exists JSONDecodeError. reflexivity.
Qed.

Lemma parse_never_fails_witness :
  NoDup (keys MARKETING_COPY_CRITERIA) /\
  keys (_parse_claude_response Json.loads Json.float_of_str "not json"
          MARKETING_COPY_CRITERIA)
  = keys MARKETING_COPY_CRITERIA.
Proof.
  assert (H : NoDup (keys MARKETING_COPY_CRITERIA))
    by (apply distinct_NoDup; reflexivity).
  split; [exact H |].
  exact (proj1 (parse_never_fails Json.loads Json.float_of_str "not json"
                  MARKETING_COPY_CRITERIA H)).
Defined.

(** C10. One corrupt entry spoils the whole reply: when the text parses to a
    JSON object in which some criterion key is present with a value that has
    no "score", or no "explanation", or a "score" that [float] rejects, the
    parser returns the map of the [except] block - score 3.0 and explanation
    "Error parsing response" for every criterion - whatever the other
    entries of the reply are. *)
Theorem parse_corrupt_entry_poisons :
  forall (json_loads : string -> result pyval)
         (float_of_str : string -> result Q)
         (text : string) (criteria : Criteria) (d : dict pyval)
         (key : string) (info : CriterionInfo) (entry : pyval),
    NoDup (keys criteria) ->
    json_loads (unfence text) = Ok (PDict d) ->
    In (key, info) criteria ->
    dict_get key d = Some entry ->
    (raises (py_getitem entry "score") \/
     raises (py_getitem entry "explanation") \/
     (exists raw, py_getitem entry "score" = Ok raw /\
                  raises (py_float float_of_str raw))) ->
    _parse_claude_response json_loads float_of_str text criteria
    = map (fun kv =>
             (fst kv,
              mkCriterionScore 3.0 (PStr "Error parsing response")
                (info_weight (snd kv))))
        criteria.
Proof.
  intros json_loads float_of_str text criteria d key info entry
    Hnd Hj Hin Hd Hbad.
  rewrite parse_raise.
  - now apply default_scores_map.
  - rewrite (parse_ok _ _ _ _ _ Hj). unfold convert_scores.
    apply loop_raises with (k := key) (x := info); [exact Hin |].
    now apply entry_of_corrupt with (entry := entry).
Qed.

Lemma parse_corrupt_entry_poisons_witness :
  _parse_claude_response Json.loads Json.float_of_str reply_null_score
    MARKETING_COPY_CRITERIA
  = map (fun kv =>
           (fst kv,
            mkCriterionScore 3.0 (PStr "Error parsing response")
              (info_weight (snd kv))))
      MARKETING_COPY_CRITERIA.
Proof.
  apply (parse_corrupt_entry_poisons Json.loads Json.float_of_str
           reply_null_score MARKETING_COPY_CRITERIA
           [("persuasiveness",
             PDict [("score", PNone); ("explanation", PStr "strong")])]
           "persuasiveness"
           (mkCriterionInfo "Persuasiveness"
              "Likely to drive action and conversion" 0.25)
           (PDict [("score", PNone); ("explanation", PStr "strong")])).
  - apply distinct_NoDup. reflexivity.
  - vm_compute. reflexivity.
  - simpl. right. left. reflexivity.
  - reflexivity.
  - right. right. exists PNone. split; [reflexivity |].
    exists TypeError. reflexivity.
Defined.





(** ** Rounding *)

Lemma round_half_even_comp (x y : Q) :
  x == y -> round_half_even x = round_half_even y.
Proof.
  intro H. unfold round_half_even.
  assert (Hf : Qfloor x = Qfloor y) by (now rewrite H).
  rewrite Hf.
  assert (Hc : Qcompare (x - inject_Z (Qfloor y)) (1 # 2)
               = Qcompare (y - inject_Z (Qfloor y)) (1 # 2))
    by (now rewrite H).
  now rewrite Hc.
Qed.

Lemma py_round_comp (x y : Q) (n : nat) : x == y -> py_round x n = py_round y n.
Proof.
  intro H. unfold py_round.
  rewrite (round_half_even_comp (x * _) (y * inject_Z (Zpos (pow10 n))));
    [reflexivity | now rewrite H].
Qed.

Lemma round_half_even_lower (a : Z) (x : Q) :
  inject_Z a <= x -> (a <= round_half_even x)%Z.
Proof.
  intro H. assert (Hf : (a <= Qfloor x)%Z).
  { rewrite <- (Qfloor_Z a). now apply Qfloor_resp_le. }
  unfold round_half_even.
  destruct (Qcompare (x - inject_Z (Qfloor x)) (1 # 2));
    [destruct (Z.even (Qfloor x)) | |]; lia.
Qed.

Lemma round_half_even_upper (b : Z) (x : Q) :
  x <= inject_Z b -> (round_half_even x <= b)%Z.
Proof.
  intro H. pose proof (Qfloor_le x) as Hlo.
  assert (Hf : (Qfloor x <= b)%Z).
  { rewrite Zle_Qle. now apply Qle_trans with x. }
  assert (Hstrict : 0 < x - inject_Z (Qfloor x) -> (Qfloor x + 1 <= b)%Z).
  { intro Hpos. assert (Hlt : inject_Z (Qfloor x) < inject_Z b) by lra.
    rewrite <- Zlt_Qlt in Hlt. lia. }
  unfold round_half_even.
  destruct (Qcompare (x - inject_Z (Qfloor x)) (1 # 2)) eqn:Hc.
  - apply Qeq_alt in Hc. destruct (Z.even (Qfloor x)); [exact Hf |].
    apply Hstrict. lra.
  - exact Hf.
  - apply Qgt_alt in Hc. apply Hstrict. lra.
Qed.

Lemma py_round_2_bounds (a b : Z) (x : Q) :
  inject_Z a <= x -> x <= inject_Z b ->
  inject_Z a <= py_round x 2 /\ py_round x 2 <= inject_Z b.
Proof.
  intros Ha Hb. unfold py_round. rewrite Qred_correct.
  change (pow10 2) with 100%positive.
  assert (Hlo : (a * 100 <= round_half_even (x * inject_Z 100))%Z).
  { apply round_half_even_lower. rewrite inject_Z_mult. 
    apply Qmult_le_compat_r; [exact Ha | discriminate]. }
  assert (Hhi : (round_half_even (x * inject_Z 100) <= b * 100)%Z).
  { apply round_half_even_upper. rewrite inject_Z_mult.
    apply Qmult_le_compat_r; [exact Hb | discriminate]. }
  unfold Qle. simpl. lia.
Qed.

(** ** The score aggregator *)

(** The two totals of the loop are the two sums of the specification. *)
Lemma totals_fold (m : ScoreMap) :
  forall a b : Q,
    let totals :=
      fold_left
        (fun acc kv =>
           (fst acc + score (snd kv) * weight (snd kv),
            snd acc + weight (snd kv)))
        m (a, b) in
    fst totals == a + sum_score_weight m /\ snd totals == b + sum_weight m.
Proof.
  induction m as [| kv m IH]; intros a b; simpl.
  - split; ring.
  - destruct (IH (a + score (snd kv) * weight (snd kv)) (b + weight (snd kv)))
      as [H1 H2].
    simpl in H1, H2. split.
    + rewrite H1. ring.
    + rewrite H2. ring.
Qed.

Lemma Qgt_bool_true (x y : Q) : Qgt_bool x y = true <-> y < x.
Proof.
  unfold Qgt_bool, Qlt_bool. rewrite negb_true_iff. split; intro H.
  - apply Qnot_le_lt. intro Hle. apply Qle_bool_iff in Hle. congruence.
  - destruct (Qle_bool x y) eqn:E; [| reflexivity].
    apply Qle_bool_iff in E. lra.
Qed.

Lemma overall_score_positive (m : ScoreMap) (criteria : Criteria) :
  0 < sum_weight m ->
  _calculate_overall_score m criteria
  = py_round (sum_score_weight m / sum_weight m) 2.
Proof.
  intro Hpos. unfold _calculate_overall_score.
  destruct (totals_fold m 0 0) as [H1 H2]. simpl in H1, H2.
  rewrite Qplus_0_l in H1, H2.
  assert (Hg : Qgt_bool
                 (snd (fold_left
                         (fun acc kv =>
                            (fst acc + score (snd kv) * weight (snd kv),
                             snd acc + weight (snd kv)))
                         m (0, 0))) 0 = true).
  { apply Qgt_bool_true. now rewrite H2. }
  rewrite Hg. apply py_round_comp. now rewrite H1, H2.
Qed.







(** A weighted mean with non-negative weights stays between the bounds of the
    scores, and so does its rounding. *)
Lemma weighted_sum_bounds (lo hi : Q) (m : ScoreMap) :
  (forall kv, In kv m -> 0 <= weight (snd kv)) ->
  (forall kv, In kv m -> lo <= score (snd kv) /\ score (snd kv) <= hi) ->
  lo * sum_weight m <= sum_score_weight m /\
  sum_score_weight m <= hi * sum_weight m.
Proof.
  induction m as [| kv m IH]; simpl; intros Hw Hs.
  - split; lra.
  - destruct IH as [IH1 IH2];
      [intros; apply Hw; now right | intros; apply Hs; now right |].
    destruct (Hs kv (or_introl eq_refl)) as [H1 H2].
    pose proof (Hw kv (or_introl eq_refl)) as H0.
    assert (Hlo : lo * weight (snd kv) <= score (snd kv) * weight (snd kv))
      by (now apply Qmult_le_compat_r).
    assert (Hhi : score (snd kv) * weight (snd kv) <= hi * weight (snd kv))
      by (now apply Qmult_le_compat_r).
    split.
    + rewrite Qmult_plus_distr_r. lra.
    + rewrite Qmult_plus_distr_r. lra.
Qed.

Lemma overall_score_bounds (a b : Z) (m : ScoreMap) (criteria : Criteria) :
  (forall kv, In kv m -> 0 <= weight (snd kv)) ->
  0 < sum_weight m ->
  (forall kv, In kv m ->
              inject_Z a <= score (snd kv) /\ score (snd kv) <= inject_Z b) ->
  inject_Z a <= _calculate_overall_score m criteria /\
  _calculate_overall_score m criteria <= inject_Z b.
Proof.
  intros Hw Hpos Hs. rewrite overall_score_positive by exact Hpos.
  destruct (weighted_sum_bounds _ _ m Hw Hs) as [H1 H2].
  apply py_round_2_bounds.
  - now apply Qle_shift_div_l.
  - now apply Qle_shift_div_r.
Qed.

(** The sums of the weights depend on the list of weights only. *)
Lemma sum_weight_map (m : ScoreMap) :
  sum_weight m = fold_right Qplus 0 (map (fun kv => weight (snd kv)) m).
Proof. induction m as [| kv m IH]; simpl; [| rewrite IH]; reflexivity. Qed.

Lemma weights_nonneg (m : ScoreMap) :
  Forall (fun w => 0 <= w) (map (fun kv => weight (snd kv)) m) ->
  forall kv, In kv m -> 0 <= weight (snd kv).
Proof.
  intros H kv Hin. rewrite Forall_forall in H. apply H.
  now apply (in_map (fun kv => weight (snd kv))).
Qed.

Lemma computed_weights (float_of_str : string -> result Q) (v : pyval)
    (criteria : Criteria) (m : ScoreMap) :
  Forall2 (computed (criterion_entry float_of_str v)) criteria m ->
  map (fun kv => weight (snd kv)) m
  = map (fun kv => info_weight (snd kv)) criteria.
Proof.
  induction 1 as [| kv kw l m' [_ Hf] _ IH]; simpl; [reflexivity |].
  now rewrite IH, (entry_of_weight _ _ _ _ _ Hf).
Qed.

(** Every entry the parser returns carries the weight of the registry. *)
Lemma parse_weights (json_loads : string -> result pyval)
    (float_of_str : string -> result Q) (text : string) (criteria : Criteria) :
  NoDup (keys criteria) ->
  map (fun kv => weight (snd kv))
    (_parse_claude_response json_loads float_of_str text criteria)
  = map (fun kv => info_weight (snd kv)) criteria.
Proof.
  intro Hnd.
  destruct (parse_shape json_loads float_of_str text criteria Hnd)
    as [-> | (v & _ & Hall)].
  - rewrite default_scores_map by exact Hnd. rewrite map_map. reflexivity.
  - exact (computed_weights _ _ _ _ Hall).
Qed.

(** ** The orchestrator *)


Lemma registry_weights (criteria : Criteria) :
  criteria = MARKETING_COPY_CRITERIA \/
  criteria = BILINGUAL_COMPLIANCE_CRITERIA ->
  NoDup (keys criteria) /\
  Forall (fun w => 0 <= w) (map (fun kv => info_weight (snd kv)) criteria) /\
  0 < fold_right Qplus 0 (map (fun kv => info_weight (snd kv)) criteria).
Proof.
  intros [-> | ->]; (split; [apply distinct_NoDup; reflexivity | split]);
    try reflexivity; repeat constructor; discriminate.
Qed.




(** ** The human-judgment section *)

Lemma criteria_weight_in (criteria : Criteria) (k : string) :
  In k (keys criteria) -> criteria_weight criteria k = Ok (weight_of criteria k).
Proof.
  intro H. unfold criteria_weight, weight_of.
  destruct (dict_get_in k criteria H) as [info ->]. reflexivity.
Qed.

Lemma weight_of_in (criteria : Criteria) (k : string) (info : CriterionInfo) :
  NoDup (keys criteria) -> In (k, info) criteria ->
  weight_of criteria k = info_weight info.
Proof.
  intros Hnd Hin. unfold weight_of.
  now rewrite (dict_get_nodup k info criteria Hnd Hin).
Qed.

Lemma weight_of_keys (criteria : Criteria) :
  NoDup (keys criteria) ->
  map (weight_of criteria) (keys criteria)
  = map (fun kv => info_weight (snd kv)) criteria.
Proof.
  intro Hnd. unfold keys. rewrite map_map. apply map_ext_in.
  intros [k info] Hin. simpl. now apply weight_of_in.
Qed.

Lemma list_comp_r_ok {A B : Type} (f : A -> result B) (g : A -> B)
    (xs : list A) :
  (forall x, In x xs -> f x = Ok (g x)) ->
  list_comp_r f xs = Ok (map g xs).
Proof.
  induction xs as [| x xs IH]; simpl; intro H; [reflexivity |].
  rewrite (H x (or_introl eq_refl)). simpl.
  rewrite IH by (intros; apply H; now right). reflexivity.
Qed.

(** The terms of the two sums of lines 169 and 170. *)
Lemma human_terms (criteria : Criteria) (human_scores : dict Q) :
  NoDup (keys human_scores) ->
  (forall k, In k (keys human_scores) -> In k (keys criteria)) ->
  list_comp_r
    (fun k =>
       v <- dict_getitem human_scores k ;;
       w <- criteria_weight criteria k ;;
       Ok (v * w))
    (keys human_scores)
  = Ok (map (fun kv => snd kv * weight_of criteria (fst kv)) human_scores).
Proof.
  intros Hnd Hsub.
  rewrite (list_comp_r_ok _
             (fun k =>
                match dict_get k human_scores with
                | Some v => v
                | None => 0
                end * weight_of criteria k)).
  - f_equal. unfold keys. rewrite map_map. apply map_ext_in.
    intros [k v] Hin. simpl. now rewrite (dict_get_nodup k v _ Hnd Hin).
  - intros k Hin. unfold dict_getitem.
    destruct (dict_get_in k human_scores Hin) as [v ->]. simpl.
    rewrite criteria_weight_in by auto. reflexivity.
Qed.

Lemma human_score_map_ok (criteria : Criteria) (human_scores : dict Q) :
  NoDup (keys human_scores) ->
  (forall k, In k (keys human_scores) -> In k (keys criteria)) ->
  human_score_map criteria human_scores
  = Ok (human_entries criteria human_scores).
Proof.
  intros Hnd Hsub. unfold human_score_map, dict_comp_r.
  rewrite (loop_ok _ human_scores [] (human_entries criteria human_scores));
    [reflexivity | exact Hnd |].
  unfold human_entries.
  assert (H : forall l,
             (forall kv, In kv l -> In (fst kv) (keys criteria)) ->
             Forall2
               (computed
                  (fun k v =>
                     w <- criteria_weight criteria k ;;
                     Ok (mkCriterionScore v (PStr "Human rating") w)))
               l
               (map (fun kv =>
                       (fst kv,
                        mkCriterionScore (snd kv) (PStr "Human rating")
                          (weight_of criteria (fst kv))))
                  l)).
  { induction l as [| kv l IH]; simpl; intro Hin; constructor.
    - split; [reflexivity |]. simpl.
      now rewrite criteria_weight_in by (apply Hin; now left).
    - apply IH. intros; apply Hin; now right. }
  apply H. intros kv Hin. apply Hsub. now apply in_map.
Qed.

(** The loop of the aggregator, read as two sums from the left. *)
Lemma totals_as_sums (m : ScoreMap) :
  forall a b : Q,
    fold_left
      (fun acc kv =>
         (fst acc + score (snd kv) * weight (snd kv), snd acc + weight (snd kv)))
      m (a, b)
    = (fold_left Qplus (map (fun kv => score (snd kv) * weight (snd kv)) m) a,
       fold_left Qplus (map (fun kv => weight (snd kv)) m) b).
Proof.
  induction m as [| kv m IH]; intros a b; simpl; [reflexivity |].
  now rewrite IH.
Qed.

Lemma py_sum_positive (ws : list Q) :
  ws <> [] -> Forall (fun w => 0 < w) ws -> 0 < py_sum ws.
Proof.
  intros Hne Hall. unfold py_sum.
  assert (H : forall l a, Forall (fun w => 0 < w) l -> 0 <= a ->
                          (l <> [] \/ 0 < a) -> 0 < fold_left Qplus l a).
  { induction l as [| w l IH]; simpl; intros a Hl Ha Hor.
    - destruct Hor as [H | H]; [congruence | exact H].
    - inversion Hl; subst. apply IH; [assumption | lra | right; lra]. }
  apply H; [exact Hall | lra | now left].
Qed.

Lemma Qeq_bool_positive (x : Q) : 0 < x -> Qeq_bool x 0 = false.
Proof.
  intro H. destruct (Qeq_bool x 0) eqn:E; [| reflexivity].
  apply Qeq_bool_iff in E. lra.
Qed.

(** Lines 169-171 compute what the aggregator computes on the stored map. *)
Lemma human_overall_aggregates (criteria : Criteria) (human_scores : dict Q) :
  NoDup (keys criteria) ->
  keys human_scores = keys criteria ->
  0 < py_sum (map (fun kv => info_weight (snd kv)) criteria) ->
  human_overall criteria human_scores
  = Ok (_calculate_overall_score (human_entries criteria human_scores) criteria).
Proof.
  intros Hnd Hkeys Hpos. unfold human_overall.
  rewrite human_terms;
    [| now rewrite Hkeys | intros k Hk; now rewrite <- Hkeys].
  simpl.
  rewrite (list_comp_r_ok _ (weight_of criteria))
    by (intros; now apply criteria_weight_in).
  simpl. rewrite weight_of_keys by exact Hnd.
  unfold py_div. rewrite (Qeq_bool_positive _ Hpos). simpl.
  unfold _calculate_overall_score. rewrite totals_as_sums. simpl.
  assert (Hs : map (fun kv => score (snd kv) * weight (snd kv))
                 (human_entries criteria human_scores)
               = map (fun kv => snd kv * weight_of criteria (fst kv))
                   human_scores)
    by (unfold human_entries; now rewrite map_map).
  assert (Hw : map (fun kv => weight (snd kv))
                 (human_entries criteria human_scores)
               = map (fun kv => info_weight (snd kv)) criteria).
  { unfold human_entries. rewrite map_map. simpl.
    rewrite <- weight_of_keys by exact Hnd. rewrite <- Hkeys.
    unfold keys. now rewrite map_map. }
  rewrite Hs, Hw. fold (py_sum (map (fun kv => info_weight (snd kv)) criteria)).
  assert (Hg : Qgt_bool (py_sum (map (fun kv => info_weight (snd kv)) criteria))
                 0 = true) by (now apply Qgt_bool_true).
  rewrite Hg. reflexivity.
Qed.

Lemma criteria_set_total (criteria : Criteria) :
  criteria_set criteria ->
  0 < py_sum (map (fun kv => info_weight (snd kv)) criteria).
Proof.
  intros (_ & Hne & Hall). apply py_sum_positive.
  - destruct criteria; [congruence | discriminate].
  - rewrite Forall_map. exact Hall.
Qed.

Lemma registry_criteria_set (criteria : Criteria) :
  criteria = MARKETING_COPY_CRITERIA \/
  criteria = BILINGUAL_COMPLIANCE_CRITERIA ->
  criteria_set criteria.
Proof.
  intros [-> | ->]; (split; [apply distinct_NoDup; reflexivity | split]);
    try discriminate; repeat constructor.
Qed.



Lemma read_sliders_map (slider : string -> Q) (criteria : Criteria) :
  NoDup (keys criteria) ->
  read_sliders slider criteria
  = map (fun kv => (fst kv, slider (fst kv))) criteria.
Proof.
  intro Hnd. unfold read_sliders.
  now rewrite (dict_comp_fold (fun k _ => slider k) criteria []).
Qed.

Lemma read_sliders_keys (slider : string -> Q) (criteria : Criteria) :
  NoDup (keys criteria) -> keys (read_sliders slider criteria) = keys criteria.
Proof.
  intro Hnd. rewrite read_sliders_map by exact Hnd.
  unfold keys. now rewrite map_map.
Qed.

Lemma human_entries_weights (criteria : Criteria) (human_scores : dict Q) :
  NoDup (keys criteria) ->
  keys human_scores = keys criteria ->
  map (fun kv => weight (snd kv)) (human_entries criteria human_scores)
  = map (fun kv => info_weight (snd kv)) criteria.
Proof.
  intros Hnd Hkeys. unfold human_entries. rewrite map_map. simpl.
  rewrite <- weight_of_keys by exact Hnd. rewrite <- Hkeys.
  unfold keys. now rewrite map_map.
Qed.

(** Once a human score other than zero is recorded, the section shows it and
    leaves the record alone: no form, no exception. *)
Lemma human_judgment_section_judged (evaluation : Evaluation) (x : Q)
    (slider : string -> Q) (human_feedback : string) (submit_human : bool) :
  human_overall_score evaluation = Some x -> ~ x == 0 ->
  human_judgment_section evaluation slider human_feedback submit_human
  = Ok evaluation.
Proof.
  intros Hx Hnz. unfold human_judgment_section. rewrite Hx. simpl.
  destruct (Qeq_bool x 0) eqn:E; [| reflexivity].
  apply Qeq_bool_iff in E. contradiction.
Qed.

(** C6, as the code has it.  On a record without human judgment, a submission
    with slider values in [1, 5] succeeds and sets the four human fields; from
    then on any further run of the section, submitted or not, raises nothing
    and returns the record as the first submission left it. *)
Theorem human_judgment_at_most_once :
  forall (evaluation : Evaluation) (slider1 slider2 : string -> Q)
         (feedback1 feedback2 : string) (submit2 : bool),
    human_overall_score evaluation = None ->
    (forall k, 1 <= slider1 k /\ slider1 k <= 5) ->
    exists judged scores overall,
      human_judgment_section evaluation slider1 feedback1 true = Ok judged /\
      human_scores judged = Some scores /\
      human_overall_score judged = Some overall /\
      human_decision judged = Some (get_decision overall) /\
      human_feedback judged = Some feedback1 /\
      human_judgment_section judged slider2 feedback2 submit2 = Ok judged.
Proof.
  intros evaluation slider1 slider2 feedback1 feedback2 submit2 Hfresh Hrange.
  unfold human_judgment_section at 1. rewrite Hfresh. simpl.
  set (criteria := if String.eqb (use_case evaluation) "marketing_copy"
                   then MARKETING_COPY_CRITERIA
                   else BILINGUAL_COMPLIANCE_CRITERIA).
  assert (Hreg : criteria = MARKETING_COPY_CRITERIA \/
                 criteria = BILINGUAL_COMPLIANCE_CRITERIA)
    by (unfold criteria; destruct (String.eqb _ _); auto).
  destruct (registry_weights criteria Hreg) as (Hnd & Hw & Hpos).
  pose proof (read_sliders_keys slider1 criteria Hnd) as Hkeys.
  unfold submit_human_judgment.
  rewrite human_overall_aggregates;
    [| exact Hnd | exact Hkeys
     | apply criteria_set_total; now apply registry_criteria_set].
  simpl. rewrite human_score_map_ok;
    [| now rewrite Hkeys | intros k Hk; now rewrite <- Hkeys].
  simpl.
  set (scores := human_entries criteria (read_sliders slider1 criteria)).
  set (overall := _calculate_overall_score scores criteria).
  eexists. exists scores, overall.
  split; [reflexivity |]. simpl. repeat split.
  apply human_judgment_section_judged with (x := overall); [reflexivity |].
  assert (Hb : inject_Z 1 <= overall /\ overall <= inject_Z 5).
  { apply overall_score_bounds.
    - apply weights_nonneg. unfold scores.
      now rewrite human_entries_weights.
    - rewrite sum_weight_map. unfold scores.
      now rewrite human_entries_weights.
    - intros kv Hin. unfold scores, human_entries in Hin.
      apply in_map_iff in Hin. destruct Hin as ([k v] & <- & Hin). simpl.
      rewrite read_sliders_map in Hin by exact Hnd.
      apply in_map_iff in Hin. destruct Hin as (kv' & Heq & _).
      inversion Heq; subst. apply Hrange. }
  destruct Hb as [Hb _]. intro H0. rewrite H0 in Hb.
  unfold Qle in Hb. simpl in Hb. lia.
Qed.

Lemma human_judgment_at_most_once_witness :
  exists judged,
    human_judgment_section
      (mkEvaluation "id-1" "2025-01-01T00:00:00" "marketing_copy" "Hola"
         EmptyString (default_scores MARKETING_COPY_CRITERIA) 3.0
         "human_review" None None None None)
      (fun _ => 4.5) "reads well" true = Ok judged /\
    human_feedback judged = Some "reads well" /\
    human_judgment_section judged (fun _ => 1.0) "changed my mind" true
    = Ok judged.
Proof.
  destruct (human_judgment_at_most_once
              (mkEvaluation "id-1" "2025-01-01T00:00:00" "marketing_copy"
                 "Hola" EmptyString (default_scores MARKETING_COPY_CRITERIA)
                 3.0 "human_review" None None None None)
              (fun _ => 4.5) (fun _ => 1.0) "reads well" "changed my mind" true)
    as (judged & scores & overall & H1 & _ & _ & _ & H5 & H6).
  - reflexivity.
  - intros _. split; discriminate.
  - exists judged. auto.
Defined.

(** C6 as stated fails: a second submission on [judged_record] is no failure;
    the section returns normally, with the record as it was. *)
Lemma human_judgment_counterexample :
  human_scores judged_record <> None /\
  human_overall_score judged_record = Some 4.5 /\
  human_decision judged_record <> None /\
  human_feedback judged_record <> None /\
  human_judgment_section judged_record (fun _ => 1.0) "changed my mind" true
  = Ok judged_record /\
  ~ raises
      (human_judgment_section judged_record (fun _ => 1.0) "changed my mind"
         true).
Proof.
  repeat split; try discriminate.
  intros [e He]. discriminate He.
Qed.

(** ** Serialization *)

Lemma score_roundtrip (cs : CriterionScore) :
  score_of_value (CriterionScore_asdict cs) = Ok cs.
Proof. destruct cs. reflexivity. Qed.

Lemma scores_roundtrip (m : ScoreMap) :
  NoDup (keys m) -> scores_of_value (ScoreMap_asdict m) = Ok m.
Proof.
  intro Hnd. unfold ScoreMap_asdict, scores_of_value, dict_comp_r.
  rewrite dict_comp_map by exact Hnd.
  rewrite (loop_ok _ _ [] m); [reflexivity | |].
  - simpl. unfold keys. rewrite map_map. exact Hnd.
  - clear Hnd. induction m as [| [k cs] m IH]; simpl; constructor.
    + split; [reflexivity | apply score_roundtrip].
    + exact IH.
Qed.

Lemma human_scores_roundtrip (o : option ScoreMap) :
  (forall m, o = Some m -> NoDup (keys m)) ->
  (if py_truthy (optional ScoreMap_asdict o)
   then m <- scores_of_value (optional ScoreMap_asdict o) ;; Ok (Some m)
   else match optional ScoreMap_asdict o with
        | PNone => Ok None
        | PDict _ => Ok (Some [])
        | _ => Raise TypeError
        end)
  = Ok o.
Proof.
  intro Hnd. destruct o as [m |]; [| reflexivity].
  unfold optional. specialize (Hnd m eq_refl).
  destruct m as [| kv m].
  - reflexivity.
  - assert (Ht : py_truthy (ScoreMap_asdict (kv :: m)) = true).
    { unfold ScoreMap_asdict. rewrite dict_comp_map by exact Hnd.
      reflexivity. }
    rewrite Ht, scores_roundtrip by exact Hnd. reflexivity.
Qed.

(** C8. Reading back the dictionary of a record gives the record again, field
    for field, whether the human fields are set or not; a human field that is
    absent is [None] in the dictionary. *)
Theorem from_dict_to_dict :
  forall e : Evaluation,
    NoDup (keys (ai_scores e)) ->
    (forall m, human_scores e = Some m -> NoDup (keys m)) ->
    from_dict (to_dict e) = Ok e /\
    (human_scores e = None ->
     dict_get "human_scores" (to_dict e) = Some PNone) /\
    (human_overall_score e = None ->
     dict_get "human_overall_score" (to_dict e) = Some PNone) /\
    (human_decision e = None ->
     dict_get "human_decision" (to_dict e) = Some PNone) /\
    (human_feedback e = None ->
     dict_get "human_feedback" (to_dict e) = Some PNone).
Proof.
  intros e Hai Hhuman. split.
  - unfold from_dict.
    change (dict_get "ai_scores" (to_dict e))
      with (Some (ScoreMap_asdict (ai_scores e))).
    cbv beta iota.
    rewrite scores_roundtrip by exact Hai.
    change (kwarg_default (to_dict e) "human_scores")
      with (optional ScoreMap_asdict (human_scores e)).
    rewrite (human_scores_roundtrip _ Hhuman).
    destruct e as [i t u c x a o d hs ho hd hf]; simpl.
    destruct ho, hd, hf; reflexivity.
  - destruct e as [i t u c x a o d hs ho hd hf]; simpl.
    repeat split; intros ->; reflexivity.
Qed.

Lemma from_dict_to_dict_witness :
  from_dict (to_dict judged_record) = Ok judged_record /\
  from_dict
    (to_dict
       (mkEvaluation "id-2" "2025-01-01T00:00:00" "bilingual_compliance"
          "WARNING / AVERTISSEMENT" "label"
          (default_scores BILINGUAL_COMPLIANCE_CRITERIA) 3.0 "human_review"
          None None None None))
  = Ok (mkEvaluation "id-2" "2025-01-01T00:00:00" "bilingual_compliance"
          "WARNING / AVERTISSEMENT" "label"
          (default_scores BILINGUAL_COMPLIANCE_CRITERIA) 3.0 "human_review"
          None None None None).
Proof.
  split.
  - apply (from_dict_to_dict judged_record).
    + apply distinct_NoDup. reflexivity.
    + intros m H. inversion H. apply distinct_NoDup. reflexivity.
  - apply (from_dict_to_dict
             (mkEvaluation "id-2" "2025-01-01T00:00:00" "bilingual_compliance"
                "WARNING / AVERTISSEMENT" "label"
                (default_scores BILINGUAL_COMPLIANCE_CRITERIA) 3.0
                "human_review" None None None None)).
    + apply distinct_NoDup. reflexivity.
    + intros m H. discriminate H.
Defined.

(** ** Lines and fences *)

Lemma split_lines_nonempty (s : string) :
  exists l ls, Str.split_lines s = l :: ls.
Proof.
  induction s as [| c s (l & ls & IH)]; simpl.
  - now exists EmptyString, [].
  - destruct (Ascii.eqb c Str.LF).
    + now exists EmptyString, (Str.split_lines s).
    + rewrite IH. now exists (String c l), ls.
Qed.

Lemma split_lines_no_LF (s : string) :
  no_LF s = true -> Str.split_lines s = [s].
Proof.
  induction s as [| c s IH]; simpl; intro H; [reflexivity |].
  apply andb_prop in H. destruct H as [Hc Hs].
  apply negb_true_iff in Hc. rewrite Hc, (IH Hs). reflexivity.
Qed.

Lemma split_lines_app (s t : string) :
  Str.split_lines (s ++ String Str.LF t)%string
  = Str.split_lines s ++ Str.split_lines t.
Proof.
  induction s as [| c s IH]; simpl.
  - reflexivity.
  - destruct (Ascii.eqb c Str.LF); rewrite IH; [reflexivity |].
    destruct (split_lines_nonempty s) as (l & ls & ->). reflexivity.
Qed.

Lemma join_split_lines (s : string) :
  Str.join_lines (Str.split_lines s) = s.
Proof.
  induction s as [| c s IH]; simpl; [reflexivity |].
  destruct (split_lines_nonempty s) as (l & ls & Hs). rewrite Hs in *.
  destruct (Ascii.eqb_spec c Str.LF) as [-> | Hne].
  - change (Str.join_lines (EmptyString :: l :: ls))
      with (String Str.LF (Str.join_lines (l :: ls))).
    now rewrite IH.
  - destruct ls as [| l' ls]; simpl in *; now rewrite IH.
Qed.

Lemma rstrip_fence (s : string) :
  Str.rstrip (s ++ "```")%string = (s ++ "```")%string.
Proof.
  induction s as [| c s IH]; [reflexivity |].
  change (Str.rstrip (String c s ++ "```")%string)
    with (match Str.rstrip (s ++ "```")%string with
          | EmptyString =>
              if Str.is_space c then EmptyString else String c EmptyString
          | r => String c r
          end).
  rewrite IH. destruct s; reflexivity.
Qed.

Lemma string_app_assoc (a b c : string) :
  ((a ++ b) ++ c)%string = (a ++ (b ++ c))%string.
Proof. induction a as [| x a IH]; simpl; [| rewrite IH]; reflexivity. Qed.

Lemma strip_fenced (tag j : string) : Str.strip (fenced tag j) = fenced tag j.
Proof.
  unfold Str.strip.
  assert (Hl : Str.lstrip (fenced tag j) = fenced tag j) by reflexivity.
  rewrite Hl.
  assert (Hshape : fenced tag j
                   = ((("```" ++ tag)
                        ++ String Str.LF (j ++ String Str.LF EmptyString))
                       ++ "```")%string).
  { unfold fenced. rewrite !string_app_assoc. simpl.
    do 4 f_equal. rewrite string_app_assoc. reflexivity. }
  rewrite Hshape. apply rstrip_fence.
Qed.

(** Removing the fence lines of [fenced tag j] gives [j] back. *)
Lemma unfence_fenced (tag j : string) :
  no_LF tag = true -> unfence (fenced tag j) = j.
Proof.
  intro Htag. unfold unfence. rewrite strip_fenced.
  assert (Hs : startswith "```" (fenced tag j) = true) by reflexivity.
  rewrite Hs. unfold fenced.
  rewrite !split_lines_app.
  rewrite (split_lines_no_LF ("```" ++ tag)%string) by exact Htag.
  unfold Str.slice_1_m1. simpl tl.
  change (Str.split_lines "```") with ["```"%string].
  rewrite removelast_last. apply join_split_lines.
Qed.

Lemma unfence_plain (j : string) :
  startswith "```" (Str.strip j) = false -> unfence j = Str.strip j.
Proof. intro H. unfold unfence. now rewrite H. Qed.

(** ** The reader and the white space around a text *)

Lemma is_ws_space (c : ascii) : Json.is_ws c = true -> Str.is_space c = true.
Proof.
  destruct c as [[] [] [] [] [] [] [] []]; intro H;
    try reflexivity; discriminate H.
Qed.

Lemma is_space_not_digit (c : ascii) :
  Str.is_space c = true -> Json.is_digit c = false.
Proof.
  destruct c as [[] [] [] [] [] [] [] []]; intro H;
    try reflexivity; discriminate H.
Qed.

Lemma rstrip_split (s : string) :
  exists w, s = (Str.rstrip s ++ w)%string /\ Str.all_space w = true.
Proof.
  induction s as [| c s (w & Hs & Hw)]; simpl.
  - now exists EmptyString.
  - destruct (Str.rstrip s) as [| c' r] eqn:Hr.
    + simpl in Hs. subst w. destruct (Str.is_space c) eqn:Hc.
      * exists (String c s). split; [reflexivity |]. simpl. now rewrite Hc.
      * exists s. split; [reflexivity | exact Hw].
    + exists w. split; [| exact Hw]. simpl. f_equal. exact Hs.
Qed.

Lemma lstrip_skip_ws (s : string) : Str.lstrip (Json.skip_ws s) = Str.lstrip s.
Proof.
  induction s as [| c s IH]; simpl; [reflexivity |].
  destruct (Json.is_ws c) eqn:Hc.
  - now rewrite (is_ws_space c Hc).
  - reflexivity.
Qed.

Lemma count_lstrip (s : string) :
  Str.count_nonspace (Str.lstrip s) = Str.count_nonspace s.
Proof.
  induction s as [| c s IH]; simpl; [reflexivity |].
  destruct (Str.is_space c) eqn:Hc; [exact IH |]. simpl. now rewrite Hc.
Qed.

Lemma count_rstrip (s : string) :
  Str.count_nonspace (Str.rstrip s) = Str.count_nonspace s.
Proof.
  induction s as [| c s IH]; simpl; [reflexivity |].
  destruct (Str.rstrip s) as [| c' r] eqn:Hr.
  - simpl in IH. destruct (Str.is_space c) eqn:Hc; simpl.
    + exact IH.
    + now rewrite Hc, <- IH.
  - change (Str.count_nonspace (String c (String c' r)))
      with (if Str.is_space c then Str.count_nonspace (String c' r)
            else S (Str.count_nonspace (String c' r))).
    now rewrite IH.
Qed.

Lemma count_strip (s : string) :
  Str.count_nonspace (Str.strip s) = Str.count_nonspace s.
Proof. unfold Str.strip. now rewrite count_rstrip, count_lstrip. Qed.

(** What the lexical readers do when white space is appended to the text:
    they read the same, and leave the white space in the rest. *)
Lemma read_digits_trim (w : string) :
  Str.all_space w = true ->
  forall s acc n,
    Json.read_digits acc n (s ++ w)%string
    = (fst (fst (Json.read_digits acc n s)),
       snd (fst (Json.read_digits acc n s)),
       (snd (Json.read_digits acc n s) ++ w)%string).
Proof.
  intros Hw. induction s as [| c s IH]; intros acc n; simpl.
  - destruct w as [| c w]; [reflexivity |]. simpl in Hw.
    apply andb_prop in Hw. destruct Hw as [Hc _]. simpl.
    now rewrite (is_space_not_digit c Hc).
  - destruct (Json.is_digit c); [apply IH | reflexivity].
Qed.

Lemma skip_ws_trim (w s : string) :
  Json.skip_ws (s ++ w)%string
  = match Json.skip_ws s with
    | EmptyString => Json.skip_ws w
    | r => (r ++ w)%string
    end.
Proof.
  induction s as [| c s IH]; simpl.
  - reflexivity.
  - destruct (Json.is_ws c); [exact IH | reflexivity].
Qed.

Lemma skip_ws_space (w : string) :
  Str.all_space w = true -> Str.all_space (Json.skip_ws w) = true.
Proof.
  induction w as [| c w IH]; simpl; intro H; [reflexivity |].
  apply andb_prop in H. destruct H as [Hc Hw].
  destruct (Json.is_ws c); [auto |]. simpl. now rewrite Hc, Hw.
Qed.

Ltac ascii_cases c := destruct c as [[] [] [] [] [] [] [] []].

(** A white-space character is none of the characters the reader looks for. *)
Lemma space_char (c : ascii) :
  Str.is_space c = true ->
  Json.is_digit c = false /\ Json.hex_val c = None /\ Json.escape c = None /\
  Ascii.eqb c Json.DQUOTE = false /\
  forall x : ascii,
    Str.is_space x = false -> Ascii.eqb c x = false /\ Ascii.eqb x c = false.
Proof.
  intro H. split; [| split; [| split; [| split]]].
  - ascii_cases c; try discriminate H; reflexivity.
  - ascii_cases c; try discriminate H; reflexivity.
  - ascii_cases c; try discriminate H; reflexivity.
  - ascii_cases c; try discriminate H; reflexivity.
  - intros x Hx. split.
    + destruct (Ascii.eqb_spec c x) as [-> |]; congruence.
    + destruct (Ascii.eqb_spec x c) as [-> |]; congruence.
Qed.

Lemma space_head (w : string) (c : ascii) (t : string) :
  Str.all_space w = true -> w = String c t ->
  Str.is_space c = true /\ Str.all_space t = true.
Proof. intros H ->. simpl in H. now apply andb_prop in H. Qed.

Ltac space_eqb Hc :=
  match type of Hc with
  | Str.is_space ?c = true =>
      repeat first
        [ match goal with
          | |- context [Ascii.eqb c ?x] =>
              rewrite (proj1 (proj2 (proj2 (proj2 (proj2 (space_char c Hc))))
                                x eq_refl))
          end
        | match goal with
          | |- context [Ascii.eqb ?x c] =>
              rewrite (proj2 (proj2 (proj2 (proj2 (proj2 (space_char c Hc))))
                                x eq_refl))
          end ]
  end.

Lemma read_sign_trim (w s : string) (plus : bool) :
  Str.all_space w = true ->
  Json.read_sign plus (s ++ w)%string
  = (fst (Json.read_sign plus s), (snd (Json.read_sign plus s) ++ w)%string).
Proof.
  intro Hw. destruct s as [| c s]; simpl.
  - destruct w as [| c w]; [reflexivity |].
    destruct (space_head _ _ _ Hw eq_refl) as [Hc _].
    unfold Json.read_sign. space_eqb Hc. now rewrite andb_false_r.
  - destruct (Ascii.eqb c "-"); [reflexivity |].
    destruct (plus && Ascii.eqb c "+"); reflexivity.
Qed.

Lemma read_frac_trim (w s : string) :
  Str.all_space w = true ->
  Json.read_frac (s ++ w)%string
  = (fst (Json.read_frac s), (snd (Json.read_frac s) ++ w)%string).
Proof.
  intro Hw. destruct s as [| c s]; simpl.
  - destruct w as [| c w]; [reflexivity |].
    destruct (space_head _ _ _ Hw eq_refl) as [Hc _].
    unfold Json.read_frac. now space_eqb Hc.
  - destruct (Ascii.eqb c "."); [| reflexivity].
    rewrite (read_digits_trim w Hw).
    destruct (Json.read_digits 0 0 s) as [[v n] r]. simpl.
    destruct n; reflexivity.
Qed.

Lemma read_exp_trim (w s : string) :
  Str.all_space w = true ->
  Json.read_exp (s ++ w)%string
  = (fst (Json.read_exp s), (snd (Json.read_exp s) ++ w)%string).
Proof.
  intro Hw. destruct s as [| c s]; simpl.
  - destruct w as [| c w]; [reflexivity |].
    destruct (space_head _ _ _ Hw eq_refl) as [Hc _].
    unfold Json.read_exp. now space_eqb Hc.
  - destruct (Ascii.eqb c "e" || Ascii.eqb c "E"); [| reflexivity].
    rewrite (read_sign_trim w s true Hw).
    destruct (Json.read_sign true s) as [neg t]. simpl.
    rewrite (read_digits_trim w Hw).
    destruct (Json.read_digits 0 0 t) as [[v n] r]. simpl.
    destruct n; reflexivity.
Qed.



Lemma read_int_trim (w s : string) :
  Str.all_space w = true ->
  Json.read_int (s ++ w)%string = option_map (with_rest w) (Json.read_int s).
Proof.
  intro Hw. unfold Json.read_int. rewrite (read_sign_trim w s false Hw).
  destruct (Json.read_sign false s) as [neg t]. simpl.
  destruct t as [| c t]; simpl.
  - destruct w as [| c w]; [reflexivity |].
    destruct (space_head _ _ _ Hw eq_refl) as [Hc _].
    space_eqb Hc. now rewrite (proj1 (space_char c Hc)).
  - destruct (Ascii.eqb c "0"); [reflexivity |].
    destruct (Json.is_digit c); [| reflexivity].
    rewrite (read_digits_trim w Hw).
    destruct (Json.read_digits _ _ t) as [[v n] r]. reflexivity.
Qed.

Lemma read_number_trim (w s : string) :
  Str.all_space w = true ->
  Json.read_number (s ++ w)%string
  = option_map (with_rest w) (Json.read_number s).
Proof.
  intro Hw. unfold Json.read_number. rewrite (read_int_trim w s Hw).
  destruct (Json.read_int s) as [[[neg i] s1] |]; [| reflexivity]. simpl.
  rewrite (read_frac_trim w s1 Hw).
  destruct (Json.read_frac s1) as [frac s2]. simpl.
  rewrite (read_exp_trim w s2 Hw).
  destruct (Json.read_exp s2) as [e s3]. simpl.
  destruct frac, e; reflexivity.
Qed.

Lemma startswith_trim (w p : string) :
  Str.all_space w = true -> no_space p = true ->
  forall s, startswith p (s ++ w)%string = startswith p s.
Proof.
  intros Hw. induction p as [| c p IH]; intros Hp s; [now destruct s |].
  simpl in Hp. apply andb_prop in Hp. destruct Hp as [Hc Hp].
  apply negb_true_iff in Hc.
  destruct s as [| d s]; simpl.
  - destruct w as [| d w]; [reflexivity |].
    destruct (space_head _ _ _ Hw eq_refl) as [Hd _]. simpl.
    now rewrite (proj2 (proj2 (proj2 (proj2 (proj2 (space_char d Hd)))) c Hc)).
  - now rewrite IH.
Qed.

Lemma drop_trim (w p : string) :
  forall s,
    startswith p s = true ->
    Json.drop (String.length p) (s ++ w)%string
    = (Json.drop (String.length p) s ++ w)%string.
Proof.
  induction p as [| c p IH]; intros s H; [now destruct s |].
  destruct s as [| d s]; simpl in *; [discriminate |].
  apply andb_prop in H. now apply IH.
Qed.

Lemma read_literal_trim (w s : string) :
  Str.all_space w = true ->
  Json.read_literal (s ++ w)%string
  = option_map (with_rest w) (Json.read_literal s).
Proof.
  intro Hw. unfold Json.read_literal.
  rewrite !(startswith_trim w _ Hw) by reflexivity.
  pose proof (drop_trim w "null" s) as D1.
  pose proof (drop_trim w "true" s) as D2.
  pose proof (drop_trim w "false" s) as D3.
  change (String.length "null") with 4%nat in D1.
  change (String.length "true") with 4%nat in D2.
  change (String.length "false") with 5%nat in D3.
  destruct (startswith "null" s);
    [unfold option_map, with_rest; simpl fst; simpl snd; now rewrite D1 |].
  destruct (startswith "true" s);
    [unfold option_map, with_rest; simpl fst; simpl snd; now rewrite D2 |].
  destruct (startswith "false" s);
    [unfold option_map, with_rest; simpl fst; simpl snd; now rewrite D3 |].
  reflexivity.
Qed.

Lemma read_string_space (w : string) :
  Str.all_space w = true -> Json.read_string w = Raise JSONDecodeError.
Proof.
  induction w as [| c w IH]; intro Hw; [reflexivity |].
  destruct (space_head _ _ _ Hw eq_refl) as [Hc Hw']. simpl.
  rewrite (proj1 (proj2 (proj2 (proj2 (space_char c Hc))))).
  space_eqb Hc.
  destruct (nat_of_ascii c <? 32)%nat; [reflexivity |].
  now rewrite (IH Hw').
Qed.


Lemma read_string_trim (w : string) :
  Str.all_space w = true ->
  forall n s,
    (String.length s <= n)%nat ->
    Json.read_string (s ++ w)%string = string_rest w (Json.read_string s).
Proof.
  intro Hw.
  assert (Hcons : forall c s,
             Json.read_string (s ++ w)%string
             = string_rest w (Json.read_string s) ->
             (p <- Json.read_string (s ++ w)%string ;;
              Ok (String c (fst p), snd p))
             = string_rest w
                 (p <- Json.read_string s ;; Ok (String c (fst p), snd p))).
  { intros c s ->. destruct (Json.read_string s) as [[a b] | e]; reflexivity. }
  induction n as [| n IH]; intros s Hlen.
  - destruct s; [| simpl in Hlen; lia].
    simpl. now rewrite (read_string_space w Hw).
  - destruct s as [| c s]; [simpl; now rewrite (read_string_space w Hw) |].
    simpl in Hlen. simpl.
    destruct (Ascii.eqb c Json.DQUOTE); [reflexivity |].
    destruct (Ascii.eqb c "\").
    + destruct s as [| e r]; simpl.
      * destruct w as [| d w']; [reflexivity |].
        destruct (space_head _ _ _ Hw eq_refl) as [Hd _].
        space_eqb Hd.
        now rewrite (proj1 (proj2 (proj2 (space_char d Hd)))).
      * simpl in Hlen. destruct (Ascii.eqb e "u").
        -- destruct r as [| h1 [| h2 [| h3 [| h4 r']]]]; simpl.
           ++ destruct w as [| d1 [| d2 [| d3 [| d4 w']]]]; try reflexivity.
              destruct (space_head _ _ _ Hw eq_refl) as [Hd _].
              unfold Json.read_hex4. space_eqb Hd. reflexivity.
           ++ destruct w as [| d2 [| d3 [| d4 w']]]; try reflexivity.
              destruct (space_head _ _ _ Hw eq_refl) as [Hd _].
              unfold Json.read_hex4. space_eqb Hd.
              now rewrite andb_false_r.
           ++ destruct w as [| d3 [| d4 w']]; try reflexivity.
              destruct (space_head _ _ _ Hw eq_refl) as [Hd _].
              unfold Json.read_hex4.
              rewrite (proj1 (proj2 (space_char d3 Hd))).
              destruct (Ascii.eqb h1 "0" && Ascii.eqb h2 "0"); reflexivity.
           ++ destruct w as [| d4 w']; try reflexivity.
              destruct (space_head _ _ _ Hw eq_refl) as [Hd _].
              unfold Json.read_hex4.
              rewrite (proj1 (proj2 (space_char d4 Hd))).
              destruct (Ascii.eqb h1 "0" && Ascii.eqb h2 "0");
                [destruct (Json.hex_val h3) |]; reflexivity.
           ++ destruct (Json.read_hex4 h1 h2 h3 h4); [| reflexivity].
              apply Hcons. apply IH. simpl in Hlen. lia.
        -- destruct (Json.escape e); [| reflexivity].
           apply Hcons. apply IH. lia.
    + destruct (nat_of_ascii c <? 32)%nat; [reflexivity |].
      apply Hcons. apply IH. lia.
Qed.


Lemma solid_space (w : string) : Str.all_space w = true -> ~ solid w.
Proof.
  intros Hw (c & t & -> & Hc). destruct (space_head _ _ _ Hw eq_refl). congruence.
Qed.

Lemma skip_ws_solid (w s : string) :
  Str.all_space w = true -> solid (Json.skip_ws (s ++ w)%string) ->
  Json.skip_ws (s ++ w)%string = (Json.skip_ws s ++ w)%string /\
  solid (Json.skip_ws s).
Proof.
  intros Hw Hs. rewrite skip_ws_trim in *.
  destruct (Json.skip_ws s) as [| c t] eqn:Hsk.
  - exfalso. now apply (solid_space (Json.skip_ws w) (skip_ws_space w Hw)).
  - split; [reflexivity |]. destruct Hs as (c' & t' & Heq & Hc).
    inversion Heq; subst. now exists c', t.
Qed.

Lemma read_number_solid (s : string) (p : pyval * string) :
  Json.read_number s = Some p -> solid s.
Proof.
  unfold Json.read_number, Json.read_int, Json.read_sign. intro H.
  destruct s as [| c s]; [discriminate |].
  exists c, s. split; [reflexivity |].
  destruct (Str.is_space c) eqn:Hc; [| reflexivity].
  exfalso. revert H. space_eqb Hc. simpl. space_eqb Hc.
  rewrite (proj1 (space_char c Hc)). discriminate.
Qed.

Lemma read_literal_solid (s : string) (p : pyval * string) :
  Json.read_literal s = Some p -> solid s.
Proof.
  unfold Json.read_literal. intro H.
  destruct s as [| c s]; [discriminate |].
  exists c, s. split; [reflexivity |].
  destruct (Str.is_space c) eqn:Hc; [| reflexivity].
  exfalso. revert H. cbn [startswith]. space_eqb Hc. discriminate.
Qed.

Lemma read_value_solid (f : nat) (s : string) (x : pyval * string) :
  Json.read_value f s = Ok x -> solid s.
Proof.
  destruct f as [| f]; [discriminate |]. simpl.
  destruct s as [| c s]; [discriminate |]. intro H.
  exists c, s. split; [reflexivity |].
  destruct (Str.is_space c) eqn:Hc; [| reflexivity].
  exfalso. revert H. space_eqb Hc.
  destruct (Json.read_literal (String c s)) as [p |] eqn:Hl.
  - destruct (read_literal_solid _ _ Hl) as (c' & t & Heq & Hc').
    inversion Heq; congruence.
  - destruct (Json.read_number (String c s)) as [p |] eqn:Hn; [| discriminate].
    destruct (read_number_solid _ _ Hn) as (c' & t & Heq & Hc').
    inversion Heq; congruence.
Qed.

Lemma read_members_solid (f : nat) (s : string) (acc : dict pyval)
    (x : dict pyval * string) :
  Json.read_members f s acc = Ok x -> solid s.
Proof.
  destruct f as [| f]; [discriminate |]. simpl.
  destruct s as [| c s]; [discriminate |]. intro H.
  exists c, s. split; [reflexivity |].
  destruct (Ascii.eqb_spec c Json.DQUOTE) as [-> | _];
    [reflexivity | discriminate].
Qed.

Lemma read_elements_solid (f : nat) (s : string) (x : list pyval * string) :
  Json.read_elements f s = Ok x -> solid s.
Proof.
  destruct f as [| f]; [discriminate |]. simpl. intro H.
  destruct (Json.read_value f s) as [v |] eqn:Hv; [| discriminate].
  exact (read_value_solid _ _ _ Hv).
Qed.

(** The text after a value, when white space is appended. *)
Lemma read_delimiter_trim (w s : string) (close : ascii) (d : string + string) :
  Str.all_space w = true -> Str.is_space close = false ->
  Json.read_delimiter close (s ++ w)%string = Ok d ->
  (exists t, d = inr (t ++ w)%string /\
             Json.read_delimiter close s = Ok (inr t)) \/
  (exists t, d = inl (Json.skip_ws (t ++ w)%string) /\
             Json.read_delimiter close s = Ok (inl (Json.skip_ws t))).
Proof.
  intros Hw Hclose. unfold Json.read_delimiter. intro H.
  destruct (Json.skip_ws (s ++ w)%string) as [| c t] eqn:Hsk; [discriminate |].
  assert (Hsolid : solid (Json.skip_ws (s ++ w)%string)).
  { rewrite Hsk. exists c, t. split; [reflexivity |].
    destruct (Ascii.eqb_spec c ",") as [-> |]; [reflexivity |].
    destruct (Ascii.eqb_spec c close) as [-> |]; [exact Hclose | discriminate]. }
  destruct (skip_ws_solid w s Hw Hsolid) as [Heq (c' & t' & Hs' & _)].
  rewrite Hs' in *. rewrite Hsk in Heq. inversion Heq; subst.
  destruct (Ascii.eqb c' ",").
  - right. exists t'. inversion H. auto.
  - destruct (Ascii.eqb c' close); [| discriminate].
    left. exists t'. inversion H. auto.
Qed.

Lemma skip_ws_cons (w s : string) (c : ascii) (t : string) :
  Str.all_space w = true ->
  Json.skip_ws (s ++ w)%string = String c t -> Str.is_space c = false ->
  exists t', Json.skip_ws s = String c t' /\ t = (t' ++ w)%string.
Proof.
  intros Hw Hsk Hc. rewrite skip_ws_trim in Hsk.
  destruct (Json.skip_ws s) as [| c' t'].
  - exfalso. pose proof (skip_ws_space w Hw) as Hs. rewrite Hsk in Hs.
    simpl in Hs. rewrite Hc in Hs. discriminate.
  - inversion Hsk; subst. now exists t'.
Qed.

(** The three readers of values read the same when white space is appended
    to the text, and leave that white space in the rest. *)
Lemma read_value_trim (w : string) :
  Str.all_space w = true ->
  forall f,
    (forall s x,
        Json.read_value f (s ++ w)%string = Ok x ->
        exists r, snd x = (r ++ w)%string /\
                  Json.read_value f s = Ok (fst x, r)) /\
    (forall s acc x,
        Json.read_members f (s ++ w)%string acc = Ok x ->
        exists r, snd x = (r ++ w)%string /\
                  Json.read_members f s acc = Ok (fst x, r)) /\
    (forall s x,
        Json.read_elements f (s ++ w)%string = Ok x ->
        exists r, snd x = (r ++ w)%string /\
                  Json.read_elements f s = Ok (fst x, r)).
Proof.
  intro Hw. induction f as [| f (IHV & IHM & IHE)].
  { repeat split; intros; discriminate. }
  split; [| split].
  - (* a value *)
    intros s x H.
    destruct s as [| c s].
    { exfalso. apply (solid_space w Hw). exact (read_value_solid _ _ _ H). }
    change (String c s ++ w)%string with (String c (s ++ w)%string) in H.
    cbn [Json.read_value] in *.
    destruct (Ascii.eqb c "{").
    { destruct (Json.skip_ws (s ++ w)%string) as [| c2 s2] eqn:Hsk;
        [discriminate |].
      assert (Hc2 : Str.is_space c2 = false).
      { destruct (Ascii.eqb_spec c2 "}") as [-> |]; [reflexivity |].
        destruct (Json.read_members f (String c2 s2) []) as [p |] eqn:Hm;
          [| discriminate].
        destruct (read_members_solid _ _ _ _ Hm)
          as (c' & t' & Heq & Hc').
        inversion Heq; subst. exact Hc'. }
      destruct (skip_ws_cons w s c2 s2 Hw Hsk Hc2) as (s3 & -> & ->).
      destruct (Ascii.eqb c2 "}").
      + inversion H; subst. now exists s3.
      + destruct (Json.read_members f (String c2 (s3 ++ w)) []) as [p |]
          eqn:Hm; [| discriminate].
        destruct (IHM (String c2 s3) [] p Hm) as (r & Hr & ->).
        inversion H; subst. now exists r. }
    destruct (Ascii.eqb c "[").
    { destruct (Json.skip_ws (s ++ w)%string) as [| c2 s2] eqn:Hsk;
        [discriminate |].
      assert (Hc2 : Str.is_space c2 = false).
      { destruct (Ascii.eqb_spec c2 "]") as [-> |]; [reflexivity |].
        destruct (Json.read_elements f (String c2 s2)) as [p |] eqn:Hm;
          [| discriminate].
        destruct (read_elements_solid _ _ _ Hm)
          as (c' & t' & Heq & Hc').
        inversion Heq; subst. exact Hc'. }
      destruct (skip_ws_cons w s c2 s2 Hw Hsk Hc2) as (s3 & -> & ->).
      destruct (Ascii.eqb c2 "]").
      + inversion H; subst. now exists s3.
      + destruct (Json.read_elements f (String c2 (s3 ++ w))) as [p |]
          eqn:Hm; [| discriminate].
        destruct (IHE (String c2 s3) p Hm) as (r & Hr & ->).
        inversion H; subst. now exists r. }
    destruct (Ascii.eqb c Json.DQUOTE).
    { rewrite (read_string_trim w Hw (String.length s) s (le_n _)) in H.
      destruct (Json.read_string s) as [[a b] |]; [| discriminate].
      inversion H; subst. now exists b. }
    change (String c (s ++ w)%string) with (String c s ++ w)%string in H.
    rewrite (read_literal_trim w _ Hw), (read_number_trim w _ Hw) in H.
    destruct (Json.read_literal (String c s)) as [[a b] |].
    { inversion H; subst. now exists b. }
    destruct (Json.read_number (String c s)) as [[a b] |]; [| discriminate].
    inversion H; subst. now exists b.
  - (* the members of an object *)
    intros s acc x H.
    destruct s as [| c s].
    { exfalso. apply (solid_space w Hw). exact (read_members_solid _ _ _ _ H). }
    change (String c s ++ w)%string with (String c (s ++ w)%string) in H.
    cbn [Json.read_members] in *.
    destruct (Ascii.eqb c Json.DQUOTE); [| discriminate].
    rewrite (read_string_trim w Hw (String.length s) s (le_n _)) in H.
    destruct (Json.read_string s) as [[k rest] |]; [| discriminate].
    cbn [string_rest with_rest bind fst snd] in *.
    destruct (Json.skip_ws (rest ++ w)%string) as [| c2 s2] eqn:Hsk;
      [discriminate |].
    destruct (Ascii.eqb_spec c2 ":") as [-> |]; [| discriminate].
    destruct (skip_ws_cons w rest ":" s2 Hw Hsk eq_refl) as (s3 & -> & ->).
    rewrite Ascii.eqb_refl.
    destruct (Json.read_value f (Json.skip_ws (s3 ++ w)%string)) as [v |]
      eqn:Hv; [| discriminate].
    destruct (skip_ws_solid w s3 Hw (read_value_solid _ _ _ Hv)) as [Hskv _].
    rewrite Hskv in Hv.
    destruct (IHV _ _ Hv) as (rv & Hrv & ->).
    cbn [bind fst snd] in *. rewrite Hrv in H.
    destruct (Json.read_delimiter "}" (rv ++ w)%string) as [d |] eqn:Hd;
      [| discriminate].
    destruct (read_delimiter_trim w rv "}" d Hw eq_refl Hd)
      as [(t & -> & ->) | (t & -> & ->)]; cbn [bind] in *.
    + inversion H; subst. now exists t.
    + destruct (skip_ws_solid w t Hw (read_members_solid _ _ _ _ H))
        as [Hskt _].
      rewrite Hskt in H. exact (IHM _ _ _ H).
  - (* the elements of an array *)
    intros s x H. cbn [Json.read_elements] in *.
    destruct (Json.read_value f (s ++ w)%string) as [v |] eqn:Hv;
      [| discriminate].
    destruct (IHV _ _ Hv) as (rv & Hrv & ->).
    cbn [bind fst snd] in *. rewrite Hrv in H.
    destruct (Json.read_delimiter "]" (rv ++ w)%string) as [d |] eqn:Hd;
      [| discriminate].
    destruct (read_delimiter_trim w rv "]" d Hw eq_refl Hd)
      as [(t & -> & ->) | (t & -> & ->)]; cbn [bind] in *.
    + inversion H; subst. now exists t.
    + destruct (Json.read_elements f (Json.skip_ws (t ++ w)%string)) as [p |]
        eqn:Hp; [| discriminate].
      destruct (skip_ws_solid w t Hw (read_elements_solid _ _ _ Hp))
        as [Hskt _].
      rewrite Hskt in Hp. destruct (IHE _ _ Hp) as (r & Hr & ->).
      inversion H; subst. now exists r.
Qed.

Lemma read_value_not_fence (f : nat) (t : string) (x : pyval * string) :
  Json.read_value f (String "`" t) = Ok x -> False.
Proof. destruct f as [| f]; discriminate. Qed.

Lemma rstrip_head (c : ascii) (t : string) :
  Str.is_space c = false -> exists t', Str.rstrip (String c t) = String c t'.
Proof.
  intro Hc. simpl. destruct (Str.rstrip t) as [| c' r].
  - rewrite Hc. now exists EmptyString.
  - now exists (String c' r).
Qed.

(** A text that the reader accepts is read the same once stripped, and does
    not begin with a fence. *)
Lemma loads_strip (j : string) (v : pyval) :
  Json.loads j = Ok v ->
  Json.loads (Str.strip j) = Ok v /\ startswith "```" (Str.strip j) = false.
Proof.
  unfold Json.loads. intro H.
  destruct (Json.read_value _ (Json.skip_ws j)) as [p |] eqn:Hv;
    [| discriminate].
  cbn [bind] in H.
  destruct (Json.skip_ws (snd p)) as [| ? ?] eqn:Hrest; [| discriminate].
  inversion H; subst v. clear H.
  destruct (read_value_solid _ _ _ Hv) as (c & t & Hs0 & Hc).
  assert (Hstrip : Str.strip j = Str.rstrip (String c t)).
  { unfold Str.strip. rewrite <- lstrip_skip_ws, Hs0. cbn [Str.lstrip].
    now rewrite Hc. }
  destruct (rstrip_split (String c t)) as (w & Hsplit & Hw).
  destruct (rstrip_head c t Hc) as (t' & Ht').
  rewrite Hs0, Hsplit in Hv.
  destruct (proj1 (read_value_trim w Hw _) _ _ Hv) as (r & Hr & Hv').
  rewrite Hstrip, count_rstrip, <- Hs0.
  assert (Hcount : Str.count_nonspace (Json.skip_ws j) = Str.count_nonspace j).
  { rewrite <- (count_lstrip j), <- lstrip_skip_ws. now rewrite count_lstrip. }
  rewrite Hcount, Hs0, Ht'. split.
  - assert (Hskip : Json.skip_ws (String c t') = String c t').
    { simpl. destruct (Json.is_ws c) eqn:Hws; [| reflexivity].
      apply is_ws_space in Hws. congruence. }
    rewrite Hskip, <- Ht', Hv'. cbn [bind fst snd].
    rewrite Hr, skip_ws_trim in Hrest.
    destruct (Json.skip_ws r); [reflexivity | discriminate].
  - rewrite Ht' in Hv'. cbn [startswith].
    destruct (Ascii.eqb_spec "`" c) as [<- | Hne]; [| reflexivity].
    exfalso. exact (read_value_not_fence _ _ _ Hv').
Qed.

(** C9. A reply wrapped in an opening fence line and a closing fence line is
    parsed as the reply itself: for every JSON text [j], that is every text
    the reader accepts, and more generally for whatever [json.loads] is, when
    it reads [j] the same with or without the white space around it and [j]
    does not begin with a fence. *)
Theorem parse_fenced :
  forall (float_of_str : string -> result Q)
         (tag j : string) (criteria : Criteria),
    no_LF tag = true ->
    (forall v,
        Json.loads j = Ok v ->
        _parse_claude_response Json.loads float_of_str (fenced tag j) criteria
        = _parse_claude_response Json.loads float_of_str j criteria) /\
    (forall json_loads : string -> result pyval,
        json_loads (Str.strip j) = json_loads j ->
        startswith "```" (Str.strip j) = false ->
        _parse_claude_response json_loads float_of_str (fenced tag j) criteria
        = _parse_claude_response json_loads float_of_str j criteria).
Proof.
  intros float_of_str tag j criteria Htag.
  assert (H : forall json_loads : string -> result pyval,
             json_loads (Str.strip j) = json_loads j ->
             startswith "```" (Str.strip j) = false ->
             _parse_claude_response json_loads float_of_str (fenced tag j)
               criteria
             = _parse_claude_response json_loads float_of_str j criteria).
  { intros json_loads Hws Hplain.
    unfold _parse_claude_response, parse_body.
    rewrite (unfence_fenced tag j Htag), (unfence_plain j Hplain), Hws.
    reflexivity. }
  split; [| exact H].
  intros v Hv. destruct (loads_strip j v Hv) as [Hs Hplain].
  apply H; [congruence | exact Hplain].
Qed.

Lemma parse_fenced_witness :
  no_LF "json" = true /\
  _parse_claude_response Json.loads Json.float_of_str
    (fenced "json" reply_partial) MARKETING_COPY_CRITERIA
  = _parse_claude_response Json.loads Json.float_of_str
      reply_partial MARKETING_COPY_CRITERIA.
Proof.
  split; [reflexivity |].
  eapply (proj1 (parse_fenced Json.float_of_str "json" reply_partial
                   MARKETING_COPY_CRITERIA eq_refl)).
  vm_compute. reflexivity.
Defined.

(** * Further properties *)

(** ** The decision policy, continued *)

(** X1. A higher score never gets a worse decision. *)
Theorem get_decision_monotone :
  forall s1 s2 : Q,
    s1 <= s2 ->
    (decision_rank (get_decision s1) <= decision_rank (get_decision s2))%nat.
Proof.
  intros s1 s2 Hle.
  destruct (get_decision_cases s1) as [[H1 E1] | [[H1 E1] | [[H1 H1'] E1]]];
    destruct (get_decision_cases s2) as [[H2 E2] | [[H2 E2] | [[H2 H2'] E2]]];
    rewrite E1, E2; unfold decision_rank; simpl;
    first [lia | exfalso; lra].
Qed.

Lemma get_decision_monotone_witness :
  3.2 <= 4.6 /\
  (decision_rank (get_decision 3.2) <= decision_rank (get_decision 4.6))%nat.
Proof.
  assert (H : 3.2 <= 4.6) by (unfold Qle; simpl; lia).
  split; [exact H | exact (get_decision_monotone 3.2 4.6 H)].
Defined.

Lemma get_decision_three (s : Q) :
  get_decision s = "auto_pass" \/ get_decision s = "auto_fail" \/
  get_decision s = "human_review".
Proof.
  destruct (get_decision_cases s) as [[_ E] | [[_ E] | [_ E]]]; auto.
Qed.

(** ** The orchestrator, continued *)

Lemma get_criteria_inv (use_case : string) (criteria : Criteria) :
  _get_criteria use_case = Ok criteria ->
  (use_case = "marketing_copy" \/ use_case = "bilingual_compliance") /\
  criteria = registry_of use_case.
Proof.
  unfold _get_criteria, registry_of.
  destruct (String.eqb_spec use_case "marketing_copy") as [-> | Hm].
  - intro H. inversion H. auto.
  - destruct (String.eqb_spec use_case "bilingual_compliance") as [-> | Hb];
      [| discriminate].
    intro H. inversion H. auto.
Qed.

Lemma get_criteria_unknown (use_case : string) :
  use_case <> "marketing_copy" -> use_case <> "bilingual_compliance" ->
  _get_criteria use_case = Raise ValueError.
Proof.
  intros Hm Hb. unfold _get_criteria.
  destruct (String.eqb_spec use_case "marketing_copy"); [contradiction |].
  destruct (String.eqb_spec use_case "bilingual_compliance");
    [contradiction | reflexivity].
Qed.

Lemma registry_of_registry (use_case : string) :
  registry_of use_case = MARKETING_COPY_CRITERIA \/
  registry_of use_case = BILINGUAL_COMPLIANCE_CRITERIA.
Proof. unfold registry_of. destruct (String.eqb _ _); auto. Qed.

(** X2. [evaluate_content] fails in two cases only, and before it builds
    anything: an unknown use case is a [ValueError], whatever the reply of
    the service; with a known use case, an exception of the client comes out
    as it is.  In every other case it returns a record, which carries the
    identifier, the time stamp, the use case, the content and the context it
    was given, and no human judgment. *)
Theorem evaluate_content_outcomes :
  forall (json_loads : string -> result pyval)
         (float_of_str : string -> result Q)
         (uuid4 now : string) (reply : result string)
         (content' use_case' context' : string),
    (use_case' <> "marketing_copy" -> use_case' <> "bilingual_compliance" ->
     evaluate_content json_loads float_of_str uuid4 now reply
       content' use_case' context' = Raise ValueError) /\
    (use_case' = "marketing_copy" \/ use_case' = "bilingual_compliance" ->
     forall e, reply = Raise e ->
     evaluate_content json_loads float_of_str uuid4 now reply
       content' use_case' context' = Raise e) /\
    (use_case' = "marketing_copy" \/ use_case' = "bilingual_compliance" ->
     forall text, reply = Ok text ->
     exists ev,
       evaluate_content json_loads float_of_str uuid4 now reply
         content' use_case' context' = Ok ev /\
       id ev = uuid4 /\ timestamp ev = now /\ use_case ev = use_case' /\
       content ev = content' /\ context ev = context' /\
       human_scores ev = None /\ human_overall_score ev = None /\
       human_decision ev = None /\ human_feedback ev = None).
Proof.
  intros json_loads float_of_str uuid4 now reply content' use_case' context'.
  unfold evaluate_content. split; [| split].
  - intros Hm Hb. now rewrite get_criteria_unknown.
  - intros Hu e ->. unfold _get_criteria.
    destruct Hu as [-> | ->]; reflexivity.
  - intros Hu text ->. unfold _get_criteria.
    destruct Hu as [-> | ->]; simpl; eexists; repeat split.
Qed.

Lemma evaluate_content_outcomes_witness :
  evaluate_content Json.loads Json.float_of_str "id-1" "2025-01-01T00:00:00"
    (Ok reply_partial) "Hola" "press_release" EmptyString = Raise ValueError.
Proof.
  assert (Hm : "press_release" <> "marketing_copy")
    by (intro H; discriminate H).
  assert (Hb : "press_release" <> "bilingual_compliance")
    by (intro H; discriminate H).
  exact (proj1 (evaluate_content_outcomes Json.loads Json.float_of_str "id-1"
                  "2025-01-01T00:00:00" (Ok reply_partial) "Hola"
                  "press_release" EmptyString) Hm Hb).
Defined.

(** Every record of [evaluate_content] is sound. *)
Lemma evaluate_content_sound (json_loads : string -> result pyval)
    (float_of_str : string -> result Q) (uuid4 now : string)
    (reply : result string) (content' use_case' context' : string)
    (ev : Evaluation) :
  evaluate_content json_loads float_of_str uuid4 now reply
    content' use_case' context' = Ok ev ->
  sound_record ev.
Proof.
  unfold evaluate_content. intro H.
  destruct (_get_criteria use_case') as [criteria |] eqn:Hc;
    [| discriminate].
  destruct (get_criteria_inv _ _ Hc) as [Hu ->].
  destruct reply as [text |]; [| discriminate].
  simpl in H. inversion H; subst ev; clear H.
  assert (Hnd : NoDup (keys (registry_of use_case')))
    by (apply (registry_weights _ (registry_of_registry use_case'))).
  unfold sound_record, sound_human; simpl.
  repeat split; auto.
  - now apply parse_keys.
  - now apply parse_weights.
Qed.

(** ** The human-judgment section, continued *)

Lemma human_entries_keys (criteria : Criteria) (human_scores : dict Q) :
  keys (human_entries criteria human_scores) = keys human_scores.
Proof. unfold human_entries, keys. rewrite map_map. reflexivity. Qed.

(** What a run of the section returns: the record itself, or the record with
    the four human fields of a submission. *)
Lemma human_judgment_section_cases (evaluation : Evaluation)
    (slider : string -> Q) (human_feedback : string) (submit_human : bool) :
  human_judgment_section evaluation slider human_feedback submit_human
  = Ok evaluation \/
  (truthy_float (human_overall_score evaluation) = false /\
   submit_human = true /\
   let criteria := registry_of (use_case evaluation) in
   let scores := human_entries criteria (read_sliders slider criteria) in
   human_judgment_section evaluation slider human_feedback submit_human
   = Ok (mkEvaluation (id evaluation) (timestamp evaluation)
           (use_case evaluation) (content evaluation) (context evaluation)
           (ai_scores evaluation) (ai_overall_score evaluation)
           (ai_decision evaluation)
           (Some scores)
           (Some (_calculate_overall_score scores criteria))
           (Some (get_decision (_calculate_overall_score scores criteria)))
           (Some human_feedback))).
Proof.
  unfold human_judgment_section.
  destruct (truthy_float (human_overall_score evaluation)); [now left |].
  destruct submit_human; [right | now left].
  split; [reflexivity | split; [reflexivity |]].
  fold (registry_of (use_case evaluation)).
  set (criteria := registry_of (use_case evaluation)).
  destruct (registry_weights criteria (registry_of_registry _))
    as (Hnd & _ & _).
  pose proof (read_sliders_keys slider criteria Hnd) as Hkeys.
  cbv zeta. unfold submit_human_judgment.
  rewrite human_overall_aggregates;
    [| exact Hnd | exact Hkeys
     | apply criteria_set_total; apply registry_criteria_set;
       apply registry_of_registry].
  simpl. rewrite human_score_map_ok;
    [reflexivity | now rewrite Hkeys | intros k Hk; now rewrite <- Hkeys].
Qed.

(** X3. The human-judgment section never fails, and never touches the AI
    side of a record: whatever the sliders, the feedback and the button, it
    returns a record with the same identifier, time stamp, use case, content,
    context, AI scores, AI overall score and AI decision; and without a
    submission the record is unchanged. *)
Theorem human_judgment_section_preserves :
  forall (evaluation : Evaluation) (slider : string -> Q)
         (human_feedback : string) (submit_human : bool),
    exists evaluation',
      human_judgment_section evaluation slider human_feedback submit_human
      = Ok evaluation' /\
      id evaluation' = id evaluation /\
      timestamp evaluation' = timestamp evaluation /\
      use_case evaluation' = use_case evaluation /\
      content evaluation' = content evaluation /\
      context evaluation' = context evaluation /\
      ai_scores evaluation' = ai_scores evaluation /\
      ai_overall_score evaluation' = ai_overall_score evaluation /\
      ai_decision evaluation' = ai_decision evaluation /\
      (submit_human = false -> evaluation' = evaluation).
Proof.
  intros evaluation slider human_feedback submit_human.
  destruct (human_judgment_section_cases evaluation slider human_feedback
              submit_human) as [H | (_ & Hs & H)].
  - exists evaluation. repeat split; auto.
  - cbv zeta in H. eexists. split; [exact H |]. simpl.
    repeat split. intro Hf. congruence.
Qed.

Lemma human_judgment_section_sound (evaluation evaluation' : Evaluation)
    (slider : string -> Q) (human_feedback : string) (submit_human : bool) :
  sound_record evaluation ->
  human_judgment_section evaluation slider human_feedback submit_human
  = Ok evaluation' ->
  sound_record evaluation'.
Proof.
  intros Hsound Hrun.
  destruct (human_judgment_section_cases evaluation slider human_feedback
              submit_human) as [H | (_ & _ & H)].
  - rewrite H in Hrun. inversion Hrun; subst. exact Hsound.
  - cbv zeta in H. rewrite H in Hrun. inversion Hrun; subst evaluation'.
    destruct Hsound as (Hu & Hk & Hw & Ho & Hd & _).
    unfold sound_record, sound_human; simpl.
    repeat split; auto.
    destruct (registry_weights _ (registry_of_registry (use_case evaluation)))
      as (Hnd & _ & _).
    eexists. exists human_feedback. repeat split.
    + rewrite human_entries_keys. now apply read_sliders_keys.
    + apply human_entries_weights; [exact Hnd |].
      now apply read_sliders_keys.
Qed.

(** ** The session *)

Lemma last_item_In {A : Type} (xs : list A) (x : A) :
  last_item xs = Some x -> xs = removelast xs ++ [x].
Proof.
  unfold last_item. intro H.
  destruct (rev xs) as [| y ys] eqn:Hr; [discriminate |].
  inversion H; subst y.
  assert (Hx : xs = rev ys ++ [x]).
  { rewrite <- (rev_involutive xs), Hr. reflexivity. }
  rewrite Hx at 2. now rewrite removelast_last.
Qed.

Lemma shown_In (state : SessionState) (evaluation : Evaluation) :
  shown state = Some evaluation ->
  evaluations state = removelast (evaluations state) ++ [evaluation].
Proof.
  unfold shown. destruct (show_last_eval state) as [[|] |]; try discriminate.
  apply last_item_In.
Qed.

(** The invariant of the sessions. *)
Lemma reachable_sound (state : SessionState) :
  reachable state -> Forall sound_record (evaluations state).
Proof.
  induction 1 as [| state json_loads float_of_str uuid4 now reply
                    evaluate_btn content' use_case' context' _ IH
                  | state state' slider fb submit _ IH Hrun].
  - constructor.
  - unfold evaluate_button.
    destruct evaluate_btn; [| exact IH].
    destruct (String.eqb content' EmptyString); [exact IH |].
    destruct (evaluate_content json_loads float_of_str uuid4 now reply
                content' use_case' context') as [ev |] eqn:Hev; simpl.
    + apply Forall_app. split; [exact IH |].
      constructor; [| constructor].
      exact (evaluate_content_sound _ _ _ _ _ _ _ _ _ Hev).
    + exact IH.
  - unfold human_judgment_run in Hrun.
    destruct (shown state) as [evaluation |] eqn:Hshown;
      [| inversion Hrun; subst; exact IH].
    destruct (human_judgment_section evaluation slider fb submit)
      as [evaluation' |] eqn:Hsec; [| discriminate].
    simpl in Hrun. inversion Hrun; subst state'. simpl.
    rewrite (shown_In _ _ Hshown) in IH.
    apply Forall_app in IH. destruct IH as [IH1 IH2].
    apply Forall_app. split; [exact IH1 |].
    constructor; [| constructor].
    inversion IH2; subst.
    exact (human_judgment_section_sound _ _ _ _ _ H1 Hsec).
Qed.

Lemma last_item_app {A : Type} (xs : list A) (x : A) :
  last_item (xs ++ [x]) = Some x.
Proof. unfold last_item. now rewrite rev_app_distr. Qed.

(** X4. The Evaluate button and the history.  Without a click, or with an
    empty content, the session is unchanged.  A click on a content that is
    not empty appends the record of a successful evaluation at the end of the
    history and shows it; when the evaluation raises, the history is
    unchanged and nothing is shown.  In every case the old history is the
    beginning of the new one, which has at most one record more. *)
Theorem evaluate_button_history :
  forall (state : SessionState) (evaluate_btn : bool) (content' : string)
         (outcome : result Evaluation),
    (evaluate_btn = false \/ content' = EmptyString ->
     evaluate_button state evaluate_btn content' outcome = state) /\
    (evaluate_btn = true -> content' <> EmptyString ->
     forall ev, outcome = Ok ev ->
     evaluations (evaluate_button state evaluate_btn content' outcome)
     = evaluations state ++ [ev] /\
     shown (evaluate_button state evaluate_btn content' outcome) = Some ev) /\
    (evaluate_btn = true -> content' <> EmptyString ->
     raises outcome ->
     evaluations (evaluate_button state evaluate_btn content' outcome)
     = evaluations state /\
     shown (evaluate_button state evaluate_btn content' outcome) = None) /\
    (exists added,
        evaluations (evaluate_button state evaluate_btn content' outcome)
        = evaluations state ++ added /\
        (List.length added <= 1)%nat).
Proof.
  intros state evaluate_btn content' outcome. unfold evaluate_button.
  split; [| split; [| split]].
  - intros [-> | ->]; [reflexivity |]. now destruct evaluate_btn.
  - intros -> Hc ev ->.
    destruct (String.eqb_spec content' EmptyString); [contradiction |].
    simpl. split; [reflexivity |]. unfold shown. simpl. apply last_item_app.
  - intros -> Hc [e ->].
    destruct (String.eqb_spec content' EmptyString); [contradiction |].
    simpl. split; reflexivity.
  - destruct evaluate_btn;
      [| exists []; split; [now rewrite app_nil_r | simpl; lia]].
    destruct (String.eqb content' EmptyString);
      [exists []; split; [now rewrite app_nil_r | simpl; lia] |].
    destruct outcome as [ev | e]; simpl.
    + exists [ev]. split; [reflexivity | simpl; lia].
    + exists []. split; [now rewrite app_nil_r | simpl; lia].
Qed.

Lemma evaluate_button_history_witness :
  let outcome :=
    evaluate_content Json.loads Json.float_of_str "id-1"
      "2025-01-01T00:00:00" (Ok reply_partial) "Hola" "marketing_copy"
      EmptyString in
  "Hola" <> EmptyString /\
  forall ev, outcome = Ok ev ->
    evaluations (evaluate_button initial_session true "Hola" outcome)
    = evaluations initial_session ++ [ev] /\
    shown (evaluate_button initial_session true "Hola" outcome) = Some ev.
Proof.
  intro outcome.
  assert (Hc : "Hola" <> EmptyString) by (intro H; discriminate H).
  split; [exact Hc |].
  exact (proj1 (proj2 (evaluate_button_history initial_session true "Hola"
                         outcome)) eq_refl Hc).
Defined.

Lemma lookup_rows_aux {V W : Type} (m : dict V) (d : V) :
  forall (c : dict W) (m' : dict V),
    keys m' = keys c ->
    (forall kv, In kv m' -> dict_get (fst kv) m = Some (snd kv)) ->
    map (fun kv => match dict_get (fst kv) m with Some v => v | None => d end) c
    = map snd m'.
Proof.
  induction c as [| [k info] c IH]; intros [| [k' v'] m'] Hk Hall;
    try discriminate Hk; [reflexivity |].
  simpl in Hk. injection Hk as Hk1 Hk2. subst k'. simpl.
  pose proof (Hall (k, v') (or_introl eq_refl)) as Hkv. simpl in Hkv.
  rewrite Hkv. f_equal.
  apply IH; [exact Hk2 |]. intros kv Hin. apply Hall. now right.
Qed.

Lemma lookup_rows {V W : Type} (m : dict V) (c : dict W) (d : V) :
  keys m = keys c -> NoDup (keys m) ->
  map (fun kv => match dict_get (fst kv) m with Some v => v | None => d end) c
  = map snd m.
Proof.
  intros Hk Hnd. apply lookup_rows_aux; [exact Hk |].
  intros [k v] Hin. now apply dict_get_nodup.
Qed.

Lemma combine_map_pair {A B C : Type} (f : A -> B) (g : A -> C) (l : list A) :
  map (fun a => (f a, g a)) l = combine (map f l) (map g l).
Proof. induction l as [| a l IH]; simpl; [| rewrite IH]; reflexivity. Qed.

(** The "Detailed Scores" of a sound record: every criterion finds its score
    object. *)
Lemma detailed_scores_sound (e : Evaluation) :
  sound_record e ->
  detailed_scores e
  = Ok (combine (map (fun kv => name (snd kv)) (registry_of (use_case e)))
          (map snd (ai_scores e))).
Proof.
  intros (_ & Hk & _). unfold detailed_scores.
  fold (registry_of (use_case e)).
  set (criteria := registry_of (use_case e)) in *.
  assert (Hnd : NoDup (keys (ai_scores e))).
  { rewrite Hk. apply (registry_weights _ (registry_of_registry _)). }
  set (dflt := mkCriterionScore 0 PNone 0).
  rewrite (list_comp_r_ok _
             (fun kv => (name (snd kv),
                         match dict_get (fst kv) (ai_scores e) with
                         | Some cs => cs
                         | None => dflt
                         end))).
  - f_equal. rewrite combine_map_pair. f_equal.
    apply lookup_rows; assumption.
  - intros [k info] Hin. simpl. unfold dict_getitem.
    assert (Hkin : In k (keys (ai_scores e))).
    { rewrite Hk. change (In (fst (k, info)) (map fst criteria)).
      now apply in_map. }
    destruct (dict_get_in k _ Hkin) as [cs ->]. reflexivity.
Qed.

Lemma sample_session_reachable : reachable sample_session.
Proof. unfold sample_session. apply reach_evaluate. apply reach_initial. Qed.

Lemma sample_judged_session_reachable : reachable sample_judged_session.
Proof.
  apply (reach_human sample_session sample_judged_session (fun _ => 4.5)
           "reads well" true sample_session_reachable).
  vm_compute. reflexivity.
Qed.



Lemma map_fst_combine {A B : Type} (l : list A) (l' : list B) :
  List.length l = List.length l' -> map fst (combine l l') = l.
Proof.
  revert l'. induction l as [| a l IH]; intros [| b l'] H; simpl in *;
    try discriminate; [reflexivity |].
  f_equal. apply IH. now injection H.
Qed.

Lemma map_snd_combine {A B : Type} (l : list A) (l' : list B) :
  List.length l = List.length l' -> map snd (combine l l') = l'.
Proof.
  revert l'. induction l as [| a l IH]; intros [| b l'] H; simpl in *;
    try discriminate; [reflexivity |].
  f_equal. apply IH. now injection H.
Qed.

(** X6. The "Detailed Scores" of the record on display never fail.  In every
    session the handlers can produce, the loop over the criteria finds a score
    object under every key, so no KeyError escapes; it shows one row per
    criterion, with the display names of the registry and the score objects of
    the record, both in their order. *)
Theorem detailed_scores_never_fail :
  forall (state : SessionState) (e : Evaluation),
    reachable state -> shown state = Some e ->
    exists rows,
      detailed_scores e = Ok rows /\
      map fst rows
      = map (fun kv => name (snd kv)) (registry_of (use_case e)) /\
      map snd rows = map snd (ai_scores e).
Proof.
  intros state e Hreach Hshown.
  pose proof (reachable_sound state Hreach) as Hall.
  rewrite Forall_forall in Hall.
  assert (Hsound : sound_record e).
  { apply Hall. rewrite (shown_In _ _ Hshown). apply in_or_app.
    right. now left. }
  eexists. split; [exact (detailed_scores_sound e Hsound) |].
  assert (Hlen : List.length
                   (map (fun kv => name (snd kv)) (registry_of (use_case e)))
                 = List.length (map snd (ai_scores e))).
  { destruct Hsound as (_ & Hk & _). rewrite !length_map.
    rewrite <- (length_map fst (registry_of (use_case e))).
    rewrite <- (length_map fst (ai_scores e)).
    fold (keys (registry_of (use_case e))). fold (keys (ai_scores e)).
    now rewrite Hk. }
  split; [now apply map_fst_combine | now apply map_snd_combine].
Qed.

Lemma detailed_scores_never_fail_witness :
  reachable sample_session /\
  shown sample_session = Some sample_record /\
  exists rows, detailed_scores sample_record = Ok rows.
Proof.
  assert (Hshown : shown sample_session = Some sample_record)
    by (vm_compute; reflexivity).
  split; [exact sample_session_reachable | split; [exact Hshown |]].
  destruct (detailed_scores_never_fail sample_session sample_record
              sample_session_reachable Hshown) as (rows & Hrows & _).
  exists rows. exact Hrows.
Defined.



(** ** The human judgment of the record on display *)

(** X8. A run of the human-judgment section on a session never fails and
    works in place: the flag is kept, the history keeps its length, all
    records but the last are untouched, the identifiers stay where they were,
    and without a submission the session is unchanged. *)
Theorem human_judgment_run_in_place :
  forall (state : SessionState) (slider : string -> Q)
         (human_feedback : string) (submit_human : bool),
    exists state',
      human_judgment_run state slider human_feedback submit_human = Ok state' /\
      show_last_eval state' = show_last_eval state /\
      List.length (evaluations state') = List.length (evaluations state) /\
      removelast (evaluations state') = removelast (evaluations state) /\
      map id (evaluations state') = map id (evaluations state) /\
      map ai_decision (evaluations state')
      = map ai_decision (evaluations state) /\
      (submit_human = false -> state' = state).
Proof.
  intros state slider fb submit. unfold human_judgment_run.
  destruct (shown state) as [evaluation |] eqn:Hshown.
  - destruct (human_judgment_section_cases evaluation slider fb submit)
      as [H | (_ & Hs & H)].
    + rewrite H. simpl. pose proof (shown_In _ _ Hshown) as Hl.
      rewrite <- Hl. exists (mkSessionState (evaluations state)
                               (show_last_eval state)).
      simpl. repeat split. now destruct state.
    + cbv zeta in H. rewrite H. simpl. eexists. split; [reflexivity |].
      simpl. pose proof (shown_In _ _ Hshown) as Hl.
      split; [reflexivity |].
      split; [rewrite Hl at 2; now rewrite !length_app |].
      split; [now rewrite removelast_last |].
      split; [rewrite Hl at 2; now rewrite !map_app |].
      split; [rewrite Hl at 2; now rewrite !map_app |].
      intro Hf. congruence.
  - exists state. repeat split.
Qed.

(** ** The history tab *)

Lemma ones_length {A : Type} (l : list A) (n : nat) :
  fold_left Nat.add (map (fun _ => 1%nat) l) n = (n + List.length l)%nat.
Proof.
  revert n. induction l as [| a l IH]; intro n; simpl; [lia |].
  rewrite IH. lia.
Qed.

Lemma count_decision_cons (d : string) (e : Evaluation)
    (history : list Evaluation) :
  count_decision d (e :: history)
  = ((if String.eqb (ai_decision e) d then 1 else 0)
     + count_decision d history)%nat.
Proof.
  unfold count_decision. rewrite !ones_length. simpl.
  destruct (String.eqb (ai_decision e) d); simpl; lia.
Qed.


Lemma counts_partition (history : list Evaluation) :
  Forall (fun e => ai_decision e = "auto_pass" \/ ai_decision e = "auto_fail" \/
                   ai_decision e = "human_review") history ->
  (count_decision "auto_pass" history + count_decision "auto_fail" history
   + count_decision "human_review" history = List.length history)%nat.
Proof.
  induction 1 as [| e history He _ IH]; [vm_compute; lia |].
  rewrite !count_decision_cons. simpl List.length.
  destruct He as [-> | [-> | ->]]; simpl; lia.
Qed.

Lemma length_positive {A : Type} (l : list A) :
  l <> [] -> 0 < inject_Z (Z.of_nat (List.length l)).
Proof.
  destruct l as [| a l]; [congruence |]. intros _.
  simpl List.length. rewrite Nat2Z.inj_succ. unfold Qlt. simpl. lia.
Qed.


(** The summary of a history that is not empty. *)
Lemma history_summary_some (history : list Evaluation) :
  history <> [] ->
  history_summary history
  = Ok (Some (mkSummary (List.length history)
                (count_decision "auto_pass" history)
                (count_decision "auto_fail" history)
                (count_decision "human_review" history)
                (py_sum (map ai_overall_score history)
                 / inject_Z (Z.of_nat (List.length history))))).
Proof.
  intro Hne. destruct history as [| e history]; [congruence |].
  unfold history_summary, py_div.
  rewrite (Qeq_bool_positive _ (length_positive (e :: history) Hne)).
  reflexivity.
Qed.



(** X10. In every session the handlers can produce, the three counters of
    the history tab add up to the number of evaluations: every record is
    counted once. *)
Theorem session_counters_partition :
  forall state : SessionState,
    reachable state -> evaluations state <> [] ->
    exists s,
      history_summary (evaluations state) = Ok (Some s) /\
      (n_auto_pass s + n_auto_fail s + n_human_review s)%nat
      = List.length (evaluations state).
Proof.
  intros state Hreach Hne. eexists.
  split; [exact (history_summary_some _ Hne) |]. simpl.
  apply counts_partition.
  pose proof (reachable_sound state Hreach) as Hall.
  rewrite Forall_forall in *. intros e He.
  destruct (Hall e He) as (_ & _ & _ & _ & Hd & _).
  rewrite Hd. apply get_decision_three.
Qed.

Lemma session_counters_partition_witness :
  reachable sample_session /\ evaluations sample_session <> [] /\
  exists s,
    history_summary (evaluations sample_session) = Ok (Some s) /\
    (n_auto_pass s + n_auto_fail s + n_human_review s)%nat = 1%nat.
Proof.
  assert (Hne : evaluations sample_session <> [])
    by (vm_compute; intro H; discriminate H).
  split; [exact sample_session_reachable | split; [exact Hne |]].
  destruct (session_counters_partition sample_session
              sample_session_reachable Hne) as (s & Hs & Hc).
  exists s. split; [exact Hs |]. rewrite Hc. vm_compute. reflexivity.
Defined.

Lemma combine_app {A B : Type} (l1 l2 : list A) (m1 m2 : list B) :
  List.length l1 = List.length m1 ->
  combine (l1 ++ l2) (m1 ++ m2) = combine l1 m1 ++ combine l2 m2.
Proof.
  revert m1. induction l1 as [| a l1 IH]; intros [| b m1] H; simpl in *;
    try discriminate; [reflexivity |].
  f_equal. apply IH. now injection H.
Qed.

Lemma rows_shift (n : nat) (ns : list nat) (xs : list Evaluation) :
  map (fun p => ((S n - fst p)%nat, snd p)) (combine (map S ns) xs)
  = map (fun p => ((n - fst p)%nat, snd p)) (combine ns xs).
Proof.
  revert xs. induction ns as [| k ns IH]; intros [| x xs]; simpl;
    try reflexivity.
  now rewrite IH.
Qed.

Lemma rows_numbering (history : list Evaluation) :
  map (fun p => ((List.length history - fst p)%nat, snd p))
    (combine (seq 0 (List.length history)) (rev history))
  = rev (combine (seq 1 (List.length history)) history).
Proof.
  induction history as [| x history IH] using rev_ind; [reflexivity |].
  assert (Hlen : List.length (history ++ [x]) = S (List.length history))
    by (rewrite length_app; simpl; lia).
  rewrite Hlen. set (n := List.length history) in *.
  rewrite rev_unit.
  change (seq 0 (S n)) with (0%nat :: seq 1 n).
  rewrite seq_S.
  rewrite combine_app by (rewrite length_seq; reflexivity).
  rewrite rev_app_distr.
  change (combine (0%nat :: seq 1 n) (x :: rev history))
    with ((0%nat, x) :: combine (seq 1 n) (rev history)).
  change (rev (combine [(1 + n)%nat] [x])) with [((1 + n)%nat, x)].
  rewrite map_cons. cbn [fst snd app]. f_equal.
  rewrite <- IH, <- seq_shift. apply rows_shift.
Qed.

(** X11. The numbering of the history tab.  The rows are the records of the
    history, newest first, and the number shown with a record is its position
    in the history counted from 1: the first evaluation of the session is
    always "Evaluation #1", at the bottom. *)
Theorem history_rows_numbering :
  forall history : list Evaluation,
    history_rows history
    = rev (combine (seq 1 (List.length history)) history).
Proof.
  intro history. unfold history_rows, enumerate.
  rewrite length_rev. apply rows_numbering.
Qed.

(** ** The agreement of the two scores *)






(** ** The parser, continued *)

Lemma missing_computed (float_of_str : string -> result Q) (v : pyval)
    (criteria : Criteria) :
  (forall k, In k (keys criteria) -> py_contains k v = Ok false) ->
  Forall2 (computed (criterion_entry float_of_str v)) criteria
    (map (fun kv => (fst kv, missing_entry (snd kv))) criteria).
Proof.
  induction criteria as [| [k info] criteria IH]; intro H; simpl;
    constructor.
  - split; [reflexivity |]. simpl. unfold criterion_entry.
    rewrite (H k (or_introl eq_refl)). reflexivity.
  - apply IH. intros k' Hk'. apply H. now right.
Qed.

Lemma entry_not_object (float_of_str : string -> result Q) (v : pyval)
    (key : string) (info : CriterionInfo) :
  match v with PDict _ => False | _ => True end ->
  py_contains key v <> Ok false ->
  raises (criterion_entry float_of_str v key info).
Proof.
  intros Hv Hc. unfold criterion_entry.
  destruct (py_contains key v) as [[|] | e] eqn:E; simpl.
  - destruct v; try contradiction; simpl; eexists; reflexivity.
  - congruence.
  - eexists; reflexivity.
Qed.

(** X13. A reply that is JSON, but not a JSON object.  What the parser
    returns then depends on the membership test alone.  When the test is
    false for every criterion key - an array none of whose items is a key, a
    string in which no key occurs - every criterion gets 3.0 and "Score not
    provided by evaluator".  When the test fails or is true for some key - a
    number, a boolean, null, an array with a key among its items - every
    criterion gets 3.0 and "Error parsing response". *)
Theorem parse_non_object :
  forall (json_loads : string -> result pyval)
         (float_of_str : string -> result Q)
         (text : string) (criteria : Criteria) (v : pyval),
    NoDup (keys criteria) ->
    json_loads (unfence text) = Ok v ->
    match v with PDict _ => False | _ => True end ->
    ((forall k, In k (keys criteria) -> py_contains k v = Ok false) ->
     _parse_claude_response json_loads float_of_str text criteria
     = map (fun kv => (fst kv, missing_entry (snd kv))) criteria) /\
    ((exists k, In k (keys criteria) /\ py_contains k v <> Ok false) ->
     _parse_claude_response json_loads float_of_str text criteria
     = map (fun kv => (fst kv, error_entry (snd kv))) criteria).
Proof.
  intros json_loads float_of_str text criteria v Hnd Hv Hshape. split.
  - intro Hall. unfold _parse_claude_response.
    rewrite (parse_ok _ _ _ _ _ Hv). unfold convert_scores.
    rewrite (loop_ok _ criteria []
               (map (fun kv => (fst kv, missing_entry (snd kv))) criteria));
      [reflexivity | exact Hnd | now apply missing_computed].
  - intros (k & Hk & Hc).
    rewrite <- default_scores_map by exact Hnd.
    apply parse_raise. rewrite (parse_ok _ _ _ _ _ Hv). unfold convert_scores.
    unfold keys in Hk. apply in_map_iff in Hk.
    destruct Hk as ([k' info] & Hfst & Hin). simpl in Hfst. subst k'.
    apply (loop_raises _ criteria k info Hin).
    now apply entry_not_object.
Qed.

Lemma parse_non_object_witness :
  NoDup (keys MARKETING_COPY_CRITERIA) /\
  Json.loads (unfence "[]") = Ok (PList []) /\
  _parse_claude_response Json.loads Json.float_of_str "[]"
    MARKETING_COPY_CRITERIA
  = map (fun kv => (fst kv, missing_entry (snd kv))) MARKETING_COPY_CRITERIA.
Proof.
  assert (Hnd : NoDup (keys MARKETING_COPY_CRITERIA))
    by (apply distinct_NoDup; reflexivity).
  assert (Hv : Json.loads (unfence "[]") = Ok (PList []))
    by (vm_compute; reflexivity).
  split; [exact Hnd | split; [exact Hv |]].
  apply (proj1 (parse_non_object Json.loads Json.float_of_str "[]"
                  MARKETING_COPY_CRITERIA (PList []) Hnd Hv I)).
  intros k _. reflexivity.
Defined.

(** X14. A reply that [json.loads] rejects, end to end.  For either use case
    the evaluation still succeeds: the record carries the default scores, an
    overall score of 3 and the decision "human_review", so an unreadable
    reply is never passed or failed automatically. *)
Theorem evaluate_unreadable_reply :
  forall (json_loads : string -> result pyval)
         (float_of_str : string -> result Q) (uuid4 now : string)
         (text content' use_case' context' : string),
    use_case' = "marketing_copy" \/ use_case' = "bilingual_compliance" ->
    raises (json_loads (unfence text)) ->
    evaluate_content json_loads float_of_str uuid4 now (Ok text)
      content' use_case' context'
    = Ok (mkEvaluation uuid4 now use_case' content' context'
            (default_scores (registry_of use_case')) 3 "human_review"
            None None None None).
Proof.
  intros json_loads float_of_str uuid4 now text content' use_case' context'
         Hu [e He].
  assert (Hp : forall criteria,
             _parse_claude_response json_loads float_of_str text criteria
             = default_scores criteria).
  { intro criteria. apply parse_raise. unfold parse_body. rewrite He.
    eexists; reflexivity. }
  destruct Hu as [-> | ->]; unfold evaluate_content; simpl; rewrite Hp;
    reflexivity.
Qed.

Lemma evaluate_unreadable_reply_witness :
  raises (Json.loads (unfence "I cannot rate this text.")) /\
  evaluate_content Json.loads Json.float_of_str "id-1" "2025-01-01T00:00:00"
    (Ok "I cannot rate this text.") "Hola" "marketing_copy" EmptyString
  = Ok (mkEvaluation "id-1" "2025-01-01T00:00:00" "marketing_copy" "Hola"
          EmptyString (default_scores MARKETING_COPY_CRITERIA) 3
          "human_review" None None None None).
Proof.
  assert (Hr : raises (Json.loads (unfence "I cannot rate this text.")))
    by (vm_compute; eexists; reflexivity).
  split; [exact Hr |].
  exact (evaluate_unreadable_reply Json.loads Json.float_of_str "id-1"
           "2025-01-01T00:00:00" "I cannot rate this text." "Hola"
           "marketing_copy" EmptyString (or_introl eq_refl) Hr).
Defined.

(** ** Fences and white space, continued *)

Lemma lstrip_space_app (w s : string) :
  Str.all_space w = true -> Str.lstrip (w ++ s)%string = Str.lstrip s.
Proof.
  induction w as [| c w IH]; simpl; intro H; [reflexivity |].
  apply andb_prop in H. destruct H as [Hc Hw]. rewrite Hc. now apply IH.
Qed.

Lemma rstrip_all_space (w : string) :
  Str.all_space w = true -> Str.rstrip w = EmptyString.
Proof.
  induction w as [| c w IH]; simpl; intro H; [reflexivity |].
  apply andb_prop in H. destruct H as [Hc Hw]. now rewrite (IH Hw), Hc.
Qed.

Lemma rstrip_app_space (s w : string) :
  Str.all_space w = true -> Str.rstrip (s ++ w)%string = Str.rstrip s.
Proof.
  intro Hw. induction s as [| c s IH]; simpl.
  - now apply rstrip_all_space.
  - now rewrite IH.
Qed.

Lemma lstrip_all_space (s : string) :
  Str.all_space s = true -> Str.lstrip s = EmptyString.
Proof.
  induction s as [| c s IH]; simpl; intro H; [reflexivity |].
  apply andb_prop in H. destruct H as [Hc Hs]. rewrite Hc. now apply IH.
Qed.

Lemma all_space_app (s w : string) :
  Str.all_space (s ++ w)%string = Str.all_space s && Str.all_space w.
Proof.
  induction s as [| c s IH]; simpl; [reflexivity |].
  now rewrite IH, andb_assoc.
Qed.

Lemma lstrip_app_right (s w : string) :
  Str.all_space s = false ->
  Str.lstrip (s ++ w)%string = (Str.lstrip s ++ w)%string.
Proof.
  induction s as [| c s IH]; simpl; intro H; [discriminate |].
  destruct (Str.is_space c); simpl in H; [now apply IH | reflexivity].
Qed.

(** [strip] does not see the white space around a text. *)
Lemma strip_outer_space (w1 s w2 : string) :
  Str.all_space w1 = true -> Str.all_space w2 = true ->
  Str.strip (w1 ++ s ++ w2)%string = Str.strip s.
Proof.
  intros H1 H2. unfold Str.strip. rewrite (lstrip_space_app _ _ H1).
  destruct (Str.all_space s) eqn:Hs.
  - rewrite (lstrip_all_space s Hs).
    rewrite lstrip_all_space by (rewrite all_space_app, Hs, H2; reflexivity).
    reflexivity.
  - rewrite (lstrip_app_right _ _ Hs). now apply rstrip_app_space.
Qed.

(** X15. White space around a reply is ignored, with or without a fence: the
    parser returns the same score map for a reply and for the reply with
    blanks, tabs or line breaks before and after it, whatever [json.loads]
    is. *)
Theorem parse_ignores_outer_space :
  forall (json_loads : string -> result pyval)
         (float_of_str : string -> result Q)
         (w1 text w2 : string) (criteria : Criteria),
    Str.all_space w1 = true -> Str.all_space w2 = true ->
    _parse_claude_response json_loads float_of_str (w1 ++ text ++ w2)%string
      criteria
    = _parse_claude_response json_loads float_of_str text criteria.
Proof.
  intros json_loads float_of_str w1 text w2 criteria H1 H2.
  unfold _parse_claude_response, parse_body, unfence.
  now rewrite (strip_outer_space w1 text w2 H1 H2).
Qed.

Lemma parse_ignores_outer_space_witness :
  Str.all_space (String Str.LF " ") = true /\
  _parse_claude_response Json.loads Json.float_of_str
    (String Str.LF " " ++ fenced "json" reply_partial ++ String Str.LF " ")%string
    MARKETING_COPY_CRITERIA
  = _parse_claude_response Json.loads Json.float_of_str
      (fenced "json" reply_partial) MARKETING_COPY_CRITERIA.
Proof.
  assert (Hw : Str.all_space (String Str.LF " ") = true) by reflexivity.
  split; [exact Hw |].
  exact (parse_ignores_outer_space Json.loads Json.float_of_str
           (String Str.LF " ") (fenced "json" reply_partial)
           (String Str.LF " ") MARKETING_COPY_CRITERIA Hw Hw).
Defined.

Lemma startswith_app (p s t : string) :
  startswith p s = true -> startswith p (s ++ t)%string = true.
Proof.
  revert s. induction p as [| a p IH]; intros [| b s] H;
    try reflexivity; try discriminate H.
  cbn [startswith append] in *. apply andb_prop in H. destruct H as [-> H].
  now rewrite (IH s H).
Qed.

(** X16. What the fence removal keeps.  When the stripped reply starts with a
    fence, its first and its last line are dropped, whatever the last line
    is: of a reply of three lines or more only the lines in between reach
    [json.loads], and of a reply of one or two lines nothing does.  So a
    fence that is never closed costs the reply its last line. *)
Theorem unfence_outer_lines :
  forall first last : string,
    no_LF first = true -> no_LF last = true ->
    startswith "```" first = true ->
    (Str.strip first = first -> unfence first = EmptyString) /\
    (Str.strip (first ++ String Str.LF last)%string
     = (first ++ String Str.LF last)%string ->
     unfence (first ++ String Str.LF last)%string = EmptyString) /\
    (forall body : string,
        Str.strip (first ++ String Str.LF (body ++ String Str.LF last))%string
        = (first ++ String Str.LF (body ++ String Str.LF last))%string ->
        unfence (first ++ String Str.LF (body ++ String Str.LF last))%string
        = body).
Proof.
  intros first last Hf Hl Hs.
  assert (Hstart : forall t, startswith "```" (first ++ t)%string = true)
    by (intro t; now apply startswith_app).
  split; [| split].
  - intro Hfix. unfold unfence. rewrite Hfix, Hs.
    now rewrite (split_lines_no_LF first Hf).
  - intro Hfix. unfold unfence. rewrite Hfix, Hstart.
    rewrite split_lines_app, (split_lines_no_LF first Hf),
      (split_lines_no_LF last Hl).
    reflexivity.
  - intros body Hfix. unfold unfence. rewrite Hfix, Hstart.
    rewrite !split_lines_app, (split_lines_no_LF first Hf),
      (split_lines_no_LF last Hl).
    unfold Str.slice_1_m1. simpl tl.
    rewrite removelast_last. apply join_split_lines.
Qed.

Lemma unfence_outer_lines_witness :
  no_LF "```json" = true /\ no_LF "  'score': 4}" = true /\
  startswith "```" "```json" = true /\
  unfence ("```json" ++ String Str.LF
             ("{'a':" ++ String Str.LF "  'score': 4}"))%string
  = "{'a':"%string.
Proof.
  assert (Hf : no_LF "```json" = true) by reflexivity.
  assert (Hl : no_LF "  'score': 4}" = true) by reflexivity.
  assert (Hs : startswith "```" "```json" = true) by reflexivity.
  split; [exact Hf | split; [exact Hl | split; [exact Hs |]]].
  apply (proj2 (proj2 (unfence_outer_lines "```json" "  'score': 4}"
                         Hf Hl Hs))).
  vm_compute. reflexivity.
Defined.

(** ** The aggregator, continued *)






(** ** Serialization, continued *)

Lemma only_kwargs_unknown (params : list string) (d : dict pyval)
    (k : string) :
  In k (keys d) -> ~ In k params -> only_kwargs params d = false.
Proof.
  intros Hk Hn. unfold only_kwargs.
  destruct (forallb _ (keys d)) eqn:E; [| reflexivity].
  rewrite forallb_forall in E. specialize (E k Hk).
  apply existsb_exists in E. destruct E as (p & Hp & Heq).
  apply String.eqb_eq in Heq. subst p. contradiction.
Qed.

Ltac raise_through :=
  repeat first
    [ solve [eexists; reflexivity]
    | progress cbn [bind]
    | match goal with
      | |- raises (bind ?m _) =>
          let E := fresh "E" in destruct m eqn:E; cbn [bind]
      | |- raises (if ?b then _ else _) => destruct b
      | |- raises (match ?o with Some _ => _ | None => _ end) => destruct o
      end ].

(** X18. What [from_dict] refuses.  A dictionary with a key that is no field
    of [Evaluation], or without one of the eight fields that have no default
    value, never gives a record: the call raises. *)
Theorem from_dict_rejects :
  forall data : dict pyval,
    (exists k, In k (keys data) /\ ~ In k Evaluation_fields) \/
    (exists k, In k required_fields /\ ~ In k (keys data)) ->
    raises (from_dict data).
Proof.
  intros data [(k & Hk & Hn) | (k & Hk & Hn)].
  - unfold from_dict.
    rewrite (only_kwargs_unknown Evaluation_fields data k Hk Hn).
    raise_through.
  - assert (Hnone : dict_get k data = None) by now apply dict_get_notin.
    unfold from_dict, kwarg.
    simpl in Hk.
    destruct Hk as [<- | [<- | [<- | [<- | [<- | [<- | [<- | [<- | []]]]]]]]];
      rewrite Hnone; raise_through.
Qed.

Lemma from_dict_rejects_witness :
  raises (from_dict [("id", PStr "id-1"); ("score", PFloat 4.5)]).
Proof.
  apply from_dict_rejects. left. exists "score"%string.
  split; [right; left; reflexivity |].
  intro H. simpl in H.
  repeat (destruct H as [H | H]; [discriminate H |]). exact H.
Defined.

(** The dictionary of a record with distinct keys reads back as the
    record. *)
Lemma from_dict_to_dict_record (e : Evaluation) :
  NoDup (keys (ai_scores e)) ->
  (forall m, human_scores e = Some m -> NoDup (keys m)) ->
  from_dict (to_dict e) = Ok e.
Proof.
  intros Hai Hhuman. unfold from_dict.
  change (dict_get "ai_scores" (to_dict e))
    with (Some (ScoreMap_asdict (ai_scores e))).
  cbv beta iota.
  rewrite scores_roundtrip by exact Hai.
  change (kwarg_default (to_dict e) "human_scores")
    with (optional ScoreMap_asdict (human_scores e)).
  rewrite (human_scores_roundtrip _ Hhuman).
  destruct e as [i t u c x a o d hs ho hd hf]; simpl.
  destruct ho, hd, hf; reflexivity.
Qed.

Lemma sound_record_reads_back (e : Evaluation) :
  sound_record e -> from_dict (to_dict e) = Ok e.
Proof.
  intros (_ & Hk & _ & _ & _ & Hh).
  pose proof (proj1 (registry_weights _ (registry_of_registry (use_case e))))
    as Hnd.
  apply from_dict_to_dict_record.
  - now rewrite Hk.
  - intros m Hm. unfold sound_human in Hh.
    destruct (human_overall_score e) as [h |].
    + destruct Hh as (m' & fb & Hm' & Hmk & _).
      rewrite Hm in Hm'. injection Hm' as <-. now rewrite Hmk.
    + destruct Hh as (Hnone & _). congruence.
Qed.

(** X19. The export of a session can be read back.  In every session the
    handlers can produce, [from_dict] applied to each dictionary of the
    exported list gives the history again, record for record and in the same
    order, with or without human judgments. *)
Theorem session_export_reads_back :
  forall state : SessionState,
    reachable state ->
    list_comp_r from_dict (export_data (evaluations state))
    = Ok (evaluations state).
Proof.
  intros state Hreach.
  pose proof (reachable_sound state Hreach) as Hall.
  unfold export_data.
  induction Hall as [| e history He _ IH]; [reflexivity |].
  simpl. rewrite (sound_record_reads_back e He). simpl.
  rewrite IH. reflexivity.
Qed.

Lemma session_export_reads_back_witness :
  reachable sample_judged_session /\
  list_comp_r from_dict (export_data (evaluations sample_judged_session))
  = Ok (evaluations sample_judged_session).
Proof.
  split; [exact sample_judged_session_reachable |].
  exact (session_export_reads_back sample_judged_session
           sample_judged_session_reachable).
Defined.
